(** * dank-mcp: the measurement value model, the record validator and the
      paginated fetch-and-cache pipeline

    A shallow embedding of the [Measure] type of package [ct],
    [data/us/ct/ct.go] ([FetchBrands], [CleanBrands], [IsBrandErroneous])
    and [data/cache.go] ([CheckCacheFile], [MakeCacheFile]).

    Go's [float64] is Rocq's primitive binary64 [float]: [==], [<] and [<=]
    are [PrimFloat.eqb], [ltb] and [leb], with the IEEE 754 behaviour on
    NaN, the infinities and the two zeros.  Go's [string] and [[]byte] are
    both sequences of bytes and are both [string] here. *)

From Stdlib Require Import ZArith Floats Strings.Ascii Strings.String.
From stdpp Require Import gmap strings list fin_maps.

Local Open Scope Z_scope.

(** ** Package [math] *)

Module math.

(** [math.MaxFloat64], the largest finite [float64]. *)
Definition MaxFloat64 : float := 0x1.fffffffffffffp+1023%float.

Definition NaN : float := PrimFloat.nan.

(** [math.Inf(sign)]: [+Inf] if [sign >= 0], [-Inf] otherwise. *)
Definition Inf (sign : Z) : float :=
  if 0 <=? sign then PrimFloat.infinity else PrimFloat.neg_infinity.

(** [math.IsNaN(f)] is [f != f]. *)
Definition IsNaN (f : float) : bool := negb (f =? f)%float.

(** [math.IsInf(f, sign)] is
    [sign >= 0 && f > MaxFloat64 || sign <= 0 && f < -MaxFloat64]. *)
Definition IsInf (f : float) (sign : Z) : bool :=
  (0 <=? sign) && (MaxFloat64 <? f)%float
  || (sign <=? 0) && (f <? - MaxFloat64)%float.

End math.

(** ** The measurement value (type [Measure], package [ct]) *)

Definition measureEmptySentinel : float := 0%float.
Definition measureZeroSentinel : float := math.NaN.
Definition measureTraceSentinel : float := math.Inf (-1).
Definition measureErrorSentinel : float := math.Inf (-1).

Definition measureSentinelize (amount : float) : float :=
  if (amount =? 0)%float then measureZeroSentinel
  else if (amount <? 0)%float then measureTraceSentinel
  else amount.

Record Measure : Type := mkMeasure { amount : float }.

Definition NewMeasure (a : float) : Measure := mkMeasure (measureSentinelize a).
Definition NewEmptyMeasure : Measure := mkMeasure measureEmptySentinel.
Definition NewTraceMeasure : Measure := mkMeasure measureTraceSentinel.
Definition NewErrorMeasure : Measure := mkMeasure measureTraceSentinel.

Definition IsEmpty (m : Measure) : bool := (amount m =? measureEmptySentinel)%float.
Definition IsNil (m : Measure) : bool := (amount m =? measureEmptySentinel)%float.
Definition IsTrace (m : Measure) : bool := math.IsInf (amount m) (-1).
Definition IsZero (m : Measure) : bool := math.IsNaN (amount m).

(** [Amount] returns [(result, trace, empty)]. *)
Definition Amount (m : Measure) : float * bool * bool :=
  if IsEmpty m then (0%float, false, true)
  else if IsZero m then (0%float, false, false)
  else if IsTrace m then (0%float, true, false)
  else (amount m, false, false).

Definition IsEqual (m other : Measure) : bool := (amount m =? amount other)%float.

Definition IsValidPercent (m : Measure) : bool :=
  if IsZero m || IsEmpty m || IsTrace m then true
  else (0 <=? amount m)%float && (amount m <=? 100)%float.

(** The four logical states of a measurement slot, read off a [Measure] in
    the order [Amount] tests them. *)
Inductive MeasureState : Type :=
| Empty
| Zero
| Trace
| Numeric (v : float).

Definition stateOf (m : Measure) : MeasureState :=
  if IsEmpty m then Empty
  else if IsZero m then Zero
  else if IsTrace m then Trace
  else Numeric (amount m).

(** ** Package [strings] on byte strings *)

Definition HasPrefix (s prefix : string) : bool := String.prefix prefix s.

(** [len(s) >= len(suffix) && s[len(s)-len(suffix):] == suffix] *)
Definition HasSuffix (s suffix : string) : bool :=
  (String.length suffix <=? String.length s)%nat
  && String.eqb
       (String.substring (String.length s - String.length suffix)
          (String.length suffix) s)
       suffix.

(** [strings.Contains(s, substr)]: [substr] starts at some byte of [s]. *)
Fixpoint Contains (s substr : string) : bool :=
  String.prefix substr s
  || match s with
     | EmptyString => false
     | String _ s' => Contains s' substr
     end.

(** [strings.Count(s, substr)] for a non-empty [substr]: the number of
    non-overlapping instances, scanning from the left.  [skip] bytes of the
    last instance found are still to be stepped over. *)
Fixpoint CountFrom (skip : nat) (s substr : string) : nat :=
  match s with
  | EmptyString => 0
  | String _ s' =>
      match skip with
      | S k => CountFrom k s' substr
      | O =>
          if String.prefix substr s
          then S (CountFrom (String.length substr - 1) s' substr)
          else CountFrom 0 s' substr
      end
  end.

Definition Count (s substr : string) : nat := CountFrom 0 s substr.

Fixpoint IndexByte (chars : string) (c : ascii) : bool :=
  match chars with
  | EmptyString => false
  | String d chars' => Ascii.eqb d c || IndexByte chars' c
  end.

(** [strings.ContainsAny(s, chars)] for an ASCII set [chars]: some byte of
    [s] is in [chars]. *)
Fixpoint ContainsAny (s chars : string) : bool :=
  match s with
  | EmptyString => false
  | String c s' => IndexByte chars c || ContainsAny s' chars
  end.

Definition TrimPrefix (s prefix : string) : string :=
  if HasPrefix s prefix
  then String.substring (String.length prefix)
         (String.length s - String.length prefix) s
  else s.

Definition TrimSuffix (s suffix : string) : string :=
  if HasSuffix s suffix
  then String.substring 0 (String.length s - String.length suffix) s
  else s.

(** ** Classification of measurement text (package [ct]) *)

Definition IsTraceMeasurement (str : string) : bool :=
  if String.eqb str "TRC" || Contains str "LOQ" || HasPrefix str "<"
  then true
  else false.

Definition IsEmptyMeasurement (str : string) : bool :=
  if String.eqb str "" || String.eqb str "." || String.eqb str "-"
     || HasPrefix str "--"
  then true
  else false.

Definition isLetter (c : ascii) : bool :=
  (Ascii.leb "a" c && Ascii.leb c "z") || (Ascii.leb "A" c && Ascii.leb c "Z").

(** [IsErrorMeasurement] indexes [str[0]]: on the empty string that is a
    run-time panic (index out of range), [None] here. *)
Definition IsErrorMeasurement (str : string) : option bool :=
  if (1 <? Count str ".")%nat then Some true
  else if ContainsAny str ",`/()" then Some true
  else
    c ← String.get 0 str;
    if isLetter c then Some true
    else if String.eqb str "0<0.10" || HasPrefix str "terpinolene: 1.22"
            || HasPrefix str "a-Ocimene: 1.08"
    then Some true
    else Some false.

(** ** Records of the brand dataset ([ct.go]) *)

Definition BRAND_JSON_FILENAME : string := "us_ct_brands.json".
Definition BRAND_CSV_FILENAME : string := "us_ct_brands.csv".
Definition BrandsURL : string := "https://data.ct.gov/resource/egd5-wb6r.json".

Record Image : Type := mkImage { URL : string; Description : string }.

(** [ApprovalDate] is an [iso8601.Time]; an instant in nanoseconds here. *)
Record Brand : Type := mkBrand {
  BrandName : string;
  DosageForm : string;
  BrandingEntity : string;
  ProductImage : Image;
  LabelImage : Image;
  LabAnalysis : Image;
  ApprovalDate : Z;
  RegistrationNumber : string;
  TetrahydrocannabinolThc : Measure;
  TetrahydrocannabinolAcidThca : Measure;
  CannabidiolsCbd : Measure;
  CannabidiolAcidCbda : Measure;
  APinene : Measure;
  BMyrcene : Measure;
  BCaryophyllene : Measure;
  BPinene : Measure;
  Limonene : Measure;
  Ocimene : Measure;
  LinaloolLin : Measure;
  HumuleneHum : Measure;
  Cbg : Measure;
  CbgA : Measure;
  CannabavarinCbdv : Measure;
  CannabichromeneCbc : Measure;
  CannbinolCbn : Measure;
  TetrahydrocannabivarinThcv : Measure;
  ABisabolol : Measure;
  APhellandrene : Measure;
  ATerpinene : Measure;
  BEudesmol : Measure;
  BTerpinene : Measure;
  Fenchone : Measure;
  Pulegol : Measure;
  Borneol : Measure;
  Isopulegol : Measure;
  Carene : Measure;
  Camphene : Measure;
  Camphor : Measure;
  CaryophylleneOxide : Measure;
  Cedrol : Measure;
  Eucalyptol : Measure;
  Geraniol : Measure;
  Guaiol : Measure;
  GeranylAcetate : Measure;
  Isoborneol : Measure;
  Menthol : Measure;
  LFenchone : Measure;
  Nerol : Measure;
  Sabinene : Measure;
  Terpineol : Measure;
  Terpinolene : Measure;
  TransBFarnesene : Measure;
  Valencene : Measure;
  ACedrene : Measure;
  AFarnesene : Measure;
  BFarnesene : Measure;
  CisNerolidol : Measure;
  Fenchol : Measure;
  TransNerolidol : Measure;
  Market : string;
  Chemotype : string;
  ProcessingTechnique : string;
  SolventsUsed : string;
  NationalDrugCode : string
}.

Definition zeroImage : Image := {| URL := ""; Description := "" |}.

(** The zero value [Brand{}]. *)
Definition zeroBrand : Brand :=
  {|
    BrandName := "";
    DosageForm := "";
    BrandingEntity := "";
    ProductImage := zeroImage;
    LabelImage := zeroImage;
    LabAnalysis := zeroImage;
    ApprovalDate := 0;
    RegistrationNumber := "";
    TetrahydrocannabinolThc := mkMeasure 0;
    TetrahydrocannabinolAcidThca := mkMeasure 0;
    CannabidiolsCbd := mkMeasure 0;
    CannabidiolAcidCbda := mkMeasure 0;
    APinene := mkMeasure 0;
    BMyrcene := mkMeasure 0;
    BCaryophyllene := mkMeasure 0;
    BPinene := mkMeasure 0;
    Limonene := mkMeasure 0;
    Ocimene := mkMeasure 0;
    LinaloolLin := mkMeasure 0;
    HumuleneHum := mkMeasure 0;
    Cbg := mkMeasure 0;
    CbgA := mkMeasure 0;
    CannabavarinCbdv := mkMeasure 0;
    CannabichromeneCbc := mkMeasure 0;
    CannbinolCbn := mkMeasure 0;
    TetrahydrocannabivarinThcv := mkMeasure 0;
    ABisabolol := mkMeasure 0;
    APhellandrene := mkMeasure 0;
    ATerpinene := mkMeasure 0;
    BEudesmol := mkMeasure 0;
    BTerpinene := mkMeasure 0;
    Fenchone := mkMeasure 0;
    Pulegol := mkMeasure 0;
    Borneol := mkMeasure 0;
    Isopulegol := mkMeasure 0;
    Carene := mkMeasure 0;
    Camphene := mkMeasure 0;
    Camphor := mkMeasure 0;
    CaryophylleneOxide := mkMeasure 0;
    Cedrol := mkMeasure 0;
    Eucalyptol := mkMeasure 0;
    Geraniol := mkMeasure 0;
    Guaiol := mkMeasure 0;
    GeranylAcetate := mkMeasure 0;
    Isoborneol := mkMeasure 0;
    Menthol := mkMeasure 0;
    LFenchone := mkMeasure 0;
    Nerol := mkMeasure 0;
    Sabinene := mkMeasure 0;
    Terpineol := mkMeasure 0;
    Terpinolene := mkMeasure 0;
    TransBFarnesene := mkMeasure 0;
    Valencene := mkMeasure 0;
    ACedrene := mkMeasure 0;
    AFarnesene := mkMeasure 0;
    BFarnesene := mkMeasure 0;
    CisNerolidol := mkMeasure 0;
    Fenchol := mkMeasure 0;
    TransNerolidol := mkMeasure 0;
    Market := "";
    Chemotype := "";
    ProcessingTechnique := "";
    SolventsUsed := "";
    NationalDrugCode := ""
  |}.

(** The fields of [Brand] whose declared type is [Measure], in declaration
    order. *)
Definition BrandMeasures (b : Brand) : list Measure :=
  [ b.(TetrahydrocannabinolThc);
    b.(TetrahydrocannabinolAcidThca);
    b.(CannabidiolsCbd);
    b.(CannabidiolAcidCbda);
    b.(APinene);
    b.(BMyrcene);
    b.(BCaryophyllene);
    b.(BPinene);
    b.(Limonene);
    b.(Ocimene);
    b.(LinaloolLin);
    b.(HumuleneHum);
    b.(Cbg);
    b.(CbgA);
    b.(CannabavarinCbdv);
    b.(CannabichromeneCbc);
    b.(CannbinolCbn);
    b.(TetrahydrocannabivarinThcv);
    b.(ABisabolol);
    b.(APhellandrene);
    b.(ATerpinene);
    b.(BEudesmol);
    b.(BTerpinene);
    b.(Fenchone);
    b.(Pulegol);
    b.(Borneol);
    b.(Isopulegol);
    b.(Carene);
    b.(Camphene);
    b.(Camphor);
    b.(CaryophylleneOxide);
    b.(Cedrol);
    b.(Eucalyptol);
    b.(Geraniol);
    b.(Guaiol);
    b.(GeranylAcetate);
    b.(Isoborneol);
    b.(Menthol);
    b.(LFenchone);
    b.(Nerol);
    b.(Sabinene);
    b.(Terpineol);
    b.(Terpinolene);
    b.(TransBFarnesene);
    b.(Valencene);
    b.(ACedrene);
    b.(AFarnesene);
    b.(BFarnesene);
    b.(CisNerolidol);
    b.(Fenchol);
    b.(TransNerolidol) ].

Definition IsBrandErroneous (b : Brand) : bool :=
  if String.eqb (b.(BrandName)) "" then true
  else if negb (IsValidPercent (b.(TetrahydrocannabinolThc)))
     || negb (IsValidPercent (b.(TetrahydrocannabinolAcidThca)))
     || negb (IsValidPercent (b.(CannabidiolsCbd)))
     || negb (IsValidPercent (b.(CannabidiolAcidCbda)))
     || negb (IsValidPercent (b.(APinene)))
     || negb (IsValidPercent (b.(BMyrcene)))
     || negb (IsValidPercent (b.(BCaryophyllene)))
     || negb (IsValidPercent (b.(BPinene)))
     || negb (IsValidPercent (b.(Limonene)))
     || negb (IsValidPercent (b.(Ocimene)))
     || negb (IsValidPercent (b.(LinaloolLin)))
     || negb (IsValidPercent (b.(HumuleneHum)))
     || negb (IsValidPercent (b.(Cbg)))
     || negb (IsValidPercent (b.(CbgA)))
     || negb (IsValidPercent (b.(CannabavarinCbdv)))
     || negb (IsValidPercent (b.(CannabichromeneCbc)))
     || negb (IsValidPercent (b.(CannbinolCbn)))
     || negb (IsValidPercent (b.(TetrahydrocannabivarinThcv)))
     || negb (IsValidPercent (b.(ABisabolol)))
     || negb (IsValidPercent (b.(APhellandrene)))
     || negb (IsValidPercent (b.(ATerpinene)))
     || negb (IsValidPercent (b.(BEudesmol)))
     || negb (IsValidPercent (b.(BTerpinene)))
     || negb (IsValidPercent (b.(Fenchone)))
     || negb (IsValidPercent (b.(Pulegol)))
     || negb (IsValidPercent (b.(Borneol)))
     || negb (IsValidPercent (b.(Isopulegol)))
     || negb (IsValidPercent (b.(Carene)))
     || negb (IsValidPercent (b.(Camphene)))
     || negb (IsValidPercent (b.(Camphor)))
     || negb (IsValidPercent (b.(CaryophylleneOxide)))
     || negb (IsValidPercent (b.(Cedrol)))
     || negb (IsValidPercent (b.(Eucalyptol)))
     || negb (IsValidPercent (b.(Geraniol)))
     || negb (IsValidPercent (b.(Guaiol)))
     || negb (IsValidPercent (b.(GeranylAcetate)))
     || negb (IsValidPercent (b.(Isoborneol)))
     || negb (IsValidPercent (b.(Menthol)))
     || negb (IsValidPercent (b.(LFenchone)))
     || negb (IsValidPercent (b.(Nerol)))
     || negb (IsValidPercent (b.(Sabinene)))
     || negb (IsValidPercent (b.(Terpineol)))
     || negb (IsValidPercent (b.(Terpinolene)))
     || negb (IsValidPercent (b.(TransBFarnesene)))
     || negb (IsValidPercent (b.(Valencene)))
     || negb (IsValidPercent (b.(ACedrene)))
     || negb (IsValidPercent (b.(AFarnesene)))
     || negb (IsValidPercent (b.(BFarnesene)))
     || negb (IsValidPercent (b.(CisNerolidol)))
     || negb (IsValidPercent (b.(Fenchol)))
     || negb (IsValidPercent (b.(TransNerolidol)))
  then true
  else false.

(** The validity rule in the words of the specification, with the brand
    name as the required field: a record is invalid if that field is
    empty or if some measurement field fails [IsValidPercent]. *)
Definition invalidByName (b : Brand) : bool :=
  String.eqb (BrandName b) ""
  || existsb (λ m, negb (IsValidPercent m)) (BrandMeasures b).

(** The same rule with the registration number, the key the remote
    collection is ordered by, as the required field. *)
Definition invalidByRegistration (b : Brand) : bool :=
  String.eqb (RegistrationNumber b) ""
  || existsb (λ m, negb (IsValidPercent m)) (BrandMeasures b).

(** A brand with the given name and registration number, every other
    field at its zero value. *)
Definition namedBrand (name registration : string) : Brand :=
  {|
    BrandName := name;
    DosageForm := "";
    BrandingEntity := "";
    ProductImage := zeroImage;
    LabelImage := zeroImage;
    LabAnalysis := zeroImage;
    ApprovalDate := 0;
    RegistrationNumber := registration;
    TetrahydrocannabinolThc := mkMeasure 0;
    TetrahydrocannabinolAcidThca := mkMeasure 0;
    CannabidiolsCbd := mkMeasure 0;
    CannabidiolAcidCbda := mkMeasure 0;
    APinene := mkMeasure 0;
    BMyrcene := mkMeasure 0;
    BCaryophyllene := mkMeasure 0;
    BPinene := mkMeasure 0;
    Limonene := mkMeasure 0;
    Ocimene := mkMeasure 0;
    LinaloolLin := mkMeasure 0;
    HumuleneHum := mkMeasure 0;
    Cbg := mkMeasure 0;
    CbgA := mkMeasure 0;
    CannabavarinCbdv := mkMeasure 0;
    CannabichromeneCbc := mkMeasure 0;
    CannbinolCbn := mkMeasure 0;
    TetrahydrocannabivarinThcv := mkMeasure 0;
    ABisabolol := mkMeasure 0;
    APhellandrene := mkMeasure 0;
    ATerpinene := mkMeasure 0;
    BEudesmol := mkMeasure 0;
    BTerpinene := mkMeasure 0;
    Fenchone := mkMeasure 0;
    Pulegol := mkMeasure 0;
    Borneol := mkMeasure 0;
    Isopulegol := mkMeasure 0;
    Carene := mkMeasure 0;
    Camphene := mkMeasure 0;
    Camphor := mkMeasure 0;
    CaryophylleneOxide := mkMeasure 0;
    Cedrol := mkMeasure 0;
    Eucalyptol := mkMeasure 0;
    Geraniol := mkMeasure 0;
    Guaiol := mkMeasure 0;
    GeranylAcetate := mkMeasure 0;
    Isoborneol := mkMeasure 0;
    Menthol := mkMeasure 0;
    LFenchone := mkMeasure 0;
    Nerol := mkMeasure 0;
    Sabinene := mkMeasure 0;
    Terpineol := mkMeasure 0;
    Terpinolene := mkMeasure 0;
    TransBFarnesene := mkMeasure 0;
    Valencene := mkMeasure 0;
    ACedrene := mkMeasure 0;
    AFarnesene := mkMeasure 0;
    BFarnesene := mkMeasure 0;
    CisNerolidol := mkMeasure 0;
    Fenchol := mkMeasure 0;
    TransNerolidol := mkMeasure 0;
    Market := "";
    Chemotype := "";
    ProcessingTechnique := "";
    SolventsUsed := "";
    NationalDrugCode := ""
  |}.

(** ** Errors and the Go standard library *)

Definition bytes : Type := string.

(** The error values the modelled functions return. *)
Inductive error : Type :=
| ErrCacheNotFound                       (* "cache file not found" *)
| ErrCacheTooOld                         (* "cache file is too old" *)
| ErrCacheRead                           (* "cache file read error: ..." *)
| ErrMkdirCache                          (* "failed to create cache directory: ..." *)
| ErrCreateCache                         (* "failed to create cache file: ..." *)
| ErrCreateJSONCache (cause : error)     (* "failed to create JSON cache file: ..." *)
| ErrTransport                           (* the error of [client.Do] *)
| ErrReadBody                            (* the error of [io.ReadAll] *)
| ErrHTTP (code : Z) (status : string) (body : bytes)
                                         (* "HTTP <code> <status> <body>" *)
| ErrHTTPReadBody (code : Z) (status : string) (body : bytes)
                                         (* the same, wrapping the read error *)
| ErrUnmarshalResult                     (* "failed to unmarshal result: ..." *)
| ErrParseFloat (s : string)             (* the error of [strconv.ParseFloat] *)
| ErrUnmarshalMeasure.                   (* "failed to unmarshal measure: ..." *)

(** Functions of the Go standard library that the program calls and that
    are taken as given, one class per package. *)

Class Strconv : Type := {
  (** [strconv.ParseFloat(s, 64)]; [None] when it returns an error. *)
  ParseFloat : string → option float
}.

Class Fmt : Type := {
  (** [fmt.Sprintf("%f", x)]. *)
  Sprintf_f : float → string
}.

Class EncodingJSON : Type := {
  (** The Go string denoted by a valid JSON string literal (the argument
      includes the quotes). *)
  jsonUnquote : string → string;
  (** [json.Unmarshal(b, &brands)] at type [[]Brand]; [None] when it
      returns an error. *)
  UnmarshalBrands : bytes → option (list Brand)
}.

Class Filepath : Type := {
  (** [filepath.Join(elem...)]. *)
  Join : list string → string
}.

Class Bytes : Type := {
  (** [bytes.TrimSpace(b)]. *)
  TrimSpace : bytes → bytes
}.

(** ** Lexical structure of JSON scalars, after [encoding/json]'s scanner *)

Definition quoteChar : ascii := "034"%char.
Definition backslashChar : ascii := "092"%char.

Definition isJSONSpace (c : ascii) : bool :=
  Ascii.eqb c " " || Ascii.eqb c "009" || Ascii.eqb c "013" || Ascii.eqb c "010".

Fixpoint trimLeftSpace (s : string) : string :=
  match s with
  | String c s' => if isJSONSpace c then trimLeftSpace s' else s
  | EmptyString => EmptyString
  end.

Fixpoint trimRightSpace (s : string) : string :=
  match s with
  | EmptyString => EmptyString
  | String c s' =>
      match trimRightSpace s' with
      | EmptyString => if isJSONSpace c then EmptyString else String c EmptyString
      | t => String c t
      end
  end.

Definition isDigit (c : ascii) : bool := Ascii.leb "0" c && Ascii.leb c "9".

Definition isHexDigit (c : ascii) : bool :=
  isDigit c || (Ascii.leb "a" c && Ascii.leb c "f")
  || (Ascii.leb "A" c && Ascii.leb c "F").

(** Scanner states inside a string literal ([stateInString],
    [stateInStringEsc], [stateInStringEscU...]) and after its closing
    quote. *)
Inductive stringState : Type :=
| InString
| InStringEsc
| InStringEscU (pending : nat)
| EndString.

(** [scanString st s]: [s] is the input after the opening quote; true when
    the literal closes exactly at the end of [s]. *)
Fixpoint scanString (st : stringState) (s : string) : bool :=
  match s with
  | EmptyString => match st with EndString => true | _ => false end
  | String c s' =>
      match st with
      | InString =>
          if Ascii.eqb c quoteChar then scanString EndString s'
          else if Ascii.eqb c backslashChar then scanString InStringEsc s'
          else if Ascii.ltb c " " then false
          else scanString InString s'
      | InStringEsc =>
          if IndexByte "bfnrt/" c || Ascii.eqb c backslashChar
             || Ascii.eqb c quoteChar
          then scanString InString s'
          else if Ascii.eqb c "u" then scanString (InStringEscU 4) s'
          else false
      | InStringEscU (S n) =>
          if isHexDigit c
          then scanString (match n with O => InString | _ => InStringEscU n end) s'
          else false
      | InStringEscU O => false
      | EndString => false
      end
  end.

(** Scanner states inside a number literal ([stateNeg], [state0],
    [state1], [stateDot], [stateDot0], [stateE], [stateESign],
    [stateE0]). *)
Inductive numberState : Type :=
| NumNeg | Num0 | Num1 | NumDot | NumDot0 | NumE | NumESign | NumE0.

Definition isExpChar (c : ascii) : bool := Ascii.eqb c "e" || Ascii.eqb c "E".

(** [scanNumber st s]: true when the rest [s] of the literal is accepted
    from state [st] and ends the input. *)
Fixpoint scanNumber (st : numberState) (s : string) : bool :=
  match s with
  | EmptyString =>
      match st with Num0 | Num1 | NumDot0 | NumE0 => true | _ => false end
  | String c s' =>
      match st with
      | NumNeg =>
          if Ascii.eqb c "0" then scanNumber Num0 s'
          else if isDigit c then scanNumber Num1 s'
          else false
      | Num1 =>
          if isDigit c then scanNumber Num1 s'
          else if Ascii.eqb c "." then scanNumber NumDot s'
          else if isExpChar c then scanNumber NumE s'
          else false
      | Num0 =>
          if Ascii.eqb c "." then scanNumber NumDot s'
          else if isExpChar c then scanNumber NumE s'
          else false
      | NumDot => if isDigit c then scanNumber NumDot0 s' else false
      | NumDot0 =>
          if isDigit c then scanNumber NumDot0 s'
          else if isExpChar c then scanNumber NumE s'
          else false
      | NumE =>
          if Ascii.eqb c "+" || Ascii.eqb c "-" then scanNumber NumESign s'
          else if isDigit c then scanNumber NumE0 s'
          else false
      | NumESign => if isDigit c then scanNumber NumE0 s' else false
      | NumE0 => if isDigit c then scanNumber NumE0 s' else false
      end
  end.

(** What a document is to a decoder whose target is a [string] or a
    [float64]: a string literal, a number literal, [null], or something
    that neither target accepts (a syntax error, or a value of another
    kind: [true], [false], an object, an array). *)
Inductive jsonScalar : Type :=
| JString (lit : string)
| JNumber (lit : string)
| JNull
| JRejected.

Definition jsonScan (b : bytes) : jsonScalar :=
  let v := trimRightSpace (trimLeftSpace b) in
  match v with
  | EmptyString => JRejected
  | String c rest =>
      if Ascii.eqb c quoteChar
      then if scanString InString rest then JString v else JRejected
      else if Ascii.eqb c "-"
      then if scanNumber NumNeg rest then JNumber v else JRejected
      else if Ascii.eqb c "0"
      then if scanNumber Num0 rest then JNumber v else JRejected
      else if isDigit c
      then if scanNumber Num1 rest then JNumber v else JRejected
      else if String.eqb v "null" then JNull
      else JRejected
  end.

Section Model.
Context {strconv : Strconv} {fmt : Fmt} {json : EncodingJSON}.

(** [var str string; json.Unmarshal(b, &str)]: [None] on error.  A JSON
    [null] leaves [str] at its zero value. *)
Definition jsonUnmarshalString (b : bytes) : option string :=
  match jsonScan b with
  | JString lit => Some (jsonUnquote lit)
  | JNull => Some ""
  | _ => None
  end.

(** [var val float64; json.Unmarshal(b, &val)]: [None] on error. *)
Definition jsonUnmarshalFloat64 (b : bytes) : option float :=
  match jsonScan b with
  | JNumber lit => ParseFloat lit
  | JNull => Some 0%float
  | _ => None
  end.

(** ** Parsing and serialising a [Measure] *)

(** The outcome of a method with receiver [m *Measure] that returns an
    [error]: the receiver afterwards, the returned error, and the
    arguments that [FromString] handed to [strconv.ParseFloat], in
    order. *)
Record Update : Type := mkUpdate {
  receiver : Measure;
  err : option error;
  parsed : list string
}.

(** [FromString]; [None] is a run-time panic. *)
Definition FromString (m : Measure) (str : string) : option Update :=
  if IsEmptyMeasurement str
  then Some (mkUpdate (mkMeasure measureEmptySentinel) None [])
  else
    isError ← IsErrorMeasurement str;
    if isError : bool
    then Some (mkUpdate (mkMeasure measureEmptySentinel) None [])
    else if IsTraceMeasurement str
    then Some (mkUpdate (mkMeasure measureTraceSentinel) None [])
    else
      let str := TrimPrefix str "," in
      let str := TrimPrefix str ">" in
      let str := TrimSuffix str "%" in
      match ParseFloat str with
      | None => Some (mkUpdate m (Some (ErrParseFloat str)) [str])
      | Some val => Some (mkUpdate (mkMeasure (measureSentinelize val)) None [str])
      end.

Definition AsSQL (m : Measure) : string :=
  if IsEmpty m || IsTrace m then "NULL"
  else if IsZero m then "0"
  else Sprintf_f (amount m).

Definition AsCSV (m : Measure) : string :=
  if IsEmpty m || IsTrace m then ""
  else if IsZero m then "0"
  else Sprintf_f (amount m).

Definition MarshalJSON (m : Measure) : bytes * option error :=
  if IsEmpty m then ("", None)
  else if IsZero m then ("0", None)
  else if IsTrace m then ("<0.01", None)
  else (Sprintf_f (amount m), None).

Definition UnmarshalJSON (m : Measure) (b : bytes) : option Update :=
  if String.eqb b "null"
  then Some (mkUpdate (mkMeasure measureEmptySentinel) None [])
  else
    match jsonUnmarshalString b with
    | Some str => FromString m str
    | None =>
        match jsonUnmarshalFloat64 b with
        | Some val => Some (mkUpdate (mkMeasure (measureSentinelize val)) None [])
        | None => Some (mkUpdate m (Some ErrUnmarshalMeasure) [])
        end
    end.

Definition UnmarshalCSV (m : Measure) (value : string) : option Update :=
  let m := if String.eqb value "" then mkMeasure measureEmptySentinel else m in
  FromString m value.

Definition MarshalCSV (m : Measure) : string * option error := (AsCSV m, None).

End Model.

(** ** Package [slices] *)

Module slices.
Section Generic.
Context {E : Type}.

Fixpoint indexFrom (i : Z) (s : list E) (f : E → bool) : Z :=
  match s with
  | [] => -1
  | v :: s' => if f v then i else indexFrom (i + 1) s' f
  end.

(** [slices.IndexFunc(s, f)]: the first index [i] with [f(s[i])], or
    [-1]. *)
Definition IndexFunc (s : list E) (f : E → bool) : Z := indexFrom 0 s f.

(** One iteration of the copying loop of [DeleteFunc], at index [j], on
    the backing array [s] with write cursor [i]. *)
Definition deleteStep (del : E → bool) (st : list E * nat) (j : nat)
  : list E * nat :=
  let '(s, i) := st in
  match s !! j with
  | Some v => if del v then (s, i) else (<[i:=v]> s, S i)
  | None => (s, i)
  end.

(** [slices.DeleteFunc(s, del)], on the backing array [s]; [zero] is the
    zero value of [E], written by [clear(s[i:])]. *)
Definition DeleteFunc (zero : E) (s : list E) (del : E → bool) : list E :=
  let i := IndexFunc s del in
  if i =? -1 then s
  else
    let i := Z.to_nat i in
    let '(s, i) :=
      foldl (deleteStep del) (s, i) (seq (i + 1) (length s - (i + 1))) in
    let s := take i s ++ replicate (length s - i) zero in
    take i s.

End Generic.
End slices.

(** [CleanBrands]: the slice it returns. *)
Definition CleanBrands (bs : list Brand) : list Brand :=
  slices.DeleteFunc zeroBrand bs (λ b, IsBrandErroneous b).

(** ** The cache directory ([cache.go]) and the remote endpoint *)

Definition DankDir : string := ".dank".
Definition CacheDir : string := "cache".

(** A regular file: its contents, its modification time (nanoseconds) and
    whether [os.ReadFile] can read it. *)
Record File : Type := mkFile {
  fileData : bytes;
  ModTime : Z;
  readable : bool
}.

(** The query of one page request. *)
Record Request : Type := mkRequest {
  reqOrder : string;
  reqOffset : Z;
  reqLimit : Z;
  reqAppToken : option string
}.

(** What [client.Do] and [io.ReadAll] give for a request: a transport
    error, or a response with its status and the bytes read from its body
    ([bodyErr]: reading the body failed). *)
Inductive HttpResult : Type :=
| TransportFailure
| Response (StatusCode : Z) (Status : string) (body : bytes) (bodyErr : bool).

Definition StatusOK : Z := 200.

(** The state outside the program: the package variable [dankRoot], the
    regular files by path name, the clock, whether [os.MkdirAll] and
    [os.Create] succeed under the cache directory, the remote endpoint, and
    the page requests issued so far. *)
Record World : Type := mkWorld {
  dankRoot : string;
  files : gmap string File;
  now : Z;
  mkdirOK : bool;
  createOK : bool;
  remote : Request → HttpResult;
  requests : list Request
}.

Definition setFiles (w : World) (fs : gmap string File) : World :=
  mkWorld (dankRoot w) fs (now w) (mkdirOK w) (createOK w) (remote w) (requests w).

Definition logRequest (w : World) (r : Request) : World :=
  mkWorld (dankRoot w) (files w) (now w) (mkdirOK w) (createOK w) (remote w)
    (requests w ++ [r]).

Definition SetDankRoot (w : World) (root : string) : World :=
  mkWorld root (files w) (now w) (mkdirOK w) (createOK w) (remote w) (requests w).

(** [os.Create(name)]: the file exists afterwards and is empty. *)
Definition osCreate (w : World) (name : string) : World :=
  setFiles w (<[name := mkFile "" (now w) true]> (files w)).

(** [f.Write(b)] and [f.WriteString(s)] on the file opened as [name]. *)
Definition fileWrite (w : World) (name : string) (b : bytes) : World :=
  setFiles w
    (alter (λ f, mkFile (String.append (fileData f) b) (now w) (readable f))
       name (files w)).

(** [os.Remove(name)]. *)
Definition osRemove (w : World) (name : string) : World :=
  setFiles w (delete name (files w)).

(** The page of a remote collection [coll] at offset [off]: at most
    [limit] records from position [off] on. *)
Definition page (limit : Z) (coll : list Brand) (off : Z) : list Brand :=
  take (Z.to_nat limit) (drop (Z.to_nat off) coll).

Section Pipeline.
Context {json : EncodingJSON} {filepath : Filepath} {bytesLib : Bytes}.

Definition GetDankDir (w : World) : string := Join [dankRoot w; DankDir].

Definition GetDankCacheDir (w : World) : string :=
  Join [dankRoot w; DankDir; CacheDir].

Definition GetDankCachePathname (w : World) (filename : string) : string :=
  Join [dankRoot w; DankDir; CacheDir; filename].

(** [CheckCacheFile(filename, maxAge)], [maxAge] in nanoseconds. *)
Definition CheckCacheFile (w : World) (filename : string) (maxAge : Z)
  : bytes * option error :=
  let cacheFilename := Join [dankRoot w; DankDir; "cache"; filename] in
  match files w !! cacheFilename with
  | None => ("", Some ErrCacheNotFound)
  | Some stat =>
      if negb (maxAge =? 0) && (ModTime stat + maxAge <? now w)
      then ("", Some ErrCacheTooOld)
      else if readable stat
      then (fileData stat, None)
      else ("", Some ErrCacheRead)
  end.

(** [MakeCacheFile(filename)]: an error, or the open file (its name). *)
Definition MakeCacheFile (w : World) (filename : string)
  : (error + string) * World :=
  let cachedFilename := Join [dankRoot w; DankDir; "cache"; filename] in
  if negb (mkdirOK w) then (inl ErrMkdirCache, w)
  else if negb (createOK w) then (inl ErrCreateCache, w)
  else (inr cachedFilename, osCreate w cachedFilename).

(** ** [FetchBrands] *)

Definition batchLimit : Z := 5000.

(** The variables of [FetchBrands] that live across iterations of its
    page loop. *)
Record LoopState : Type := mkLoopState {
  brands : list Brand;
  offset : Z;
  firstLoop : bool;
  world : World
}.

(** How one iteration of the page loop ends: [break], the next iteration,
    or [return nil, err]. *)
Inductive Step : Type :=
| Break (st : LoopState)
| Next (st : LoopState)
| Return (e : error) (w : World).

Definition pageRequest (appToken : string) (offset : Z) : Request :=
  mkRequest "registration_number" offset batchLimit
    (if String.eqb appToken "" then None else Some appToken).

(** The body of the [for] loop.  [http.NewRequest] is given the method
    [GET] and the constant [BrandsURL], on which it does not fail; the
    request is recorded when [client.Do] sends it. *)
Definition fetchPage (appToken cacheFile : string) (st : LoopState) : Step :=
  let req := pageRequest appToken (offset st) in
  let w := logRequest (world st) req in
  match remote w req with
  | TransportFailure => Return ErrTransport w
  | Response StatusCode Status body bodyErr =>
      let badStatusCode := negb (StatusCode =? StatusOK) in
      if bodyErr
      then if badStatusCode
           then Return (ErrHTTPReadBody StatusCode Status body) w
           else Return ErrReadBody w
      else if badStatusCode
      then Return (ErrHTTP StatusCode Status body) w
      else
        match UnmarshalBrands body with
        | None => Return ErrUnmarshalResult w
        | Some brandsBatch =>
            let brands := brands st ++ brandsBatch in
            let w := if firstLoop st then w else fileWrite w cacheFile "," in
            let body := TrimSpace body in
            let body := TrimPrefix body "[" in
            let body := TrimSuffix body "]" in
            let w := fileWrite w cacheFile body in
            if Z.of_nat (length brandsBatch) <? batchLimit
            then Break (mkLoopState brands (offset st) false w)
            else Next (mkLoopState brands (offset st + batchLimit) false w)
        end
  end.

(** What the request for the page at offset [off] comes to: the error
    [fetchPage] returns on it (a transport error, a failed read of the
    body, a status other than 200, a body that does not decode), or the
    decoded batch. *)
Definition pageOutcome (w : World) (appToken : string) (off : Z)
  : error + list Brand :=
  match remote w (pageRequest appToken off) with
  | TransportFailure => inl ErrTransport
  | Response StatusCode Status body bodyErr =>
      if bodyErr
      then if negb (StatusCode =? StatusOK)
           then inl (ErrHTTPReadBody StatusCode Status body)
           else inl ErrReadBody
      else if negb (StatusCode =? StatusOK)
      then inl (ErrHTTP StatusCode Status body)
      else
        match UnmarshalBrands body with
        | None => inl ErrUnmarshalResult
        | Some brandsBatch => inr brandsBatch
        end
  end.

(** The [for] loop, run for at most [fuel] iterations; [None] when the
    loop is still running after them. *)
Fixpoint fetchLoop (fuel : nat) (appToken cacheFile : string) (st : LoopState)
  : option (LoopState + error * World) :=
  match fuel with
  | O => None
  | S fuel' =>
      match fetchPage appToken cacheFile st with
      | Break st' => Some (inl st')
      | Next st' => fetchLoop fuel' appToken cacheFile st'
      | Return e w => Some (inr (e, w))
      end
  end.

(** The deferred function: close the cache file and, if
    [deleteCacheFile] is still set, remove it. *)
Definition deferred (deleteCacheFile : bool) (cacheFile : string) (w : World)
  : World :=
  if deleteCacheFile then osRemove w cacheFile else w.

(** The cache check that opens [FetchBrands]: the brands of a fresh cache
    file that decodes, if there is one. *)
Definition cachedBrands (w : World) (maxCacheAge : Z) : option (list Brand) :=
  match CheckCacheFile w BRAND_JSON_FILENAME maxCacheAge with
  | (cacheBytes, None) => UnmarshalBrands cacheBytes
  | (_, Some _) => None
  end.

(** [FetchBrands(appToken, maxCacheAge)] with its page loop bounded by
    [fuel]: the returned slice ([nil] is [[]]), the returned error and the
    world afterwards; [None] when the loop is still running after [fuel]
    iterations.  [url.Parse] does not fail on the constant [BrandsURL].
    The deferred function runs on every return after the cache file has
    been created. *)
Definition FetchBrands (fuel : nat) (w : World) (appToken : string)
    (maxCacheAge : Z) : option (list Brand * option error * World) :=
  match cachedBrands w maxCacheAge with
  | Some cacheBrands => Some (cacheBrands, None, w)
  | None =>
      match MakeCacheFile w BRAND_JSON_FILENAME with
      | (inl e, w) => Some ([], Some (ErrCreateJSONCache e), w)
      | (inr cacheFile, w) =>
          let w := fileWrite w cacheFile "[" in
          match fetchLoop fuel appToken cacheFile (mkLoopState [] 0 true w) with
          | None => None
          | Some (inr (e, w)) => Some ([], Some e, deferred true cacheFile w)
          | Some (inl st) =>
              let w := fileWrite (world st) cacheFile "]" in
              Some (brands st, None, deferred false cacheFile w)
          end
      end
  end.

End Pipeline.

(** ** Further functions of the packages *)

(** A [driver.Value] as [Measure.Value] builds it: [nil], the untyped
    constant [0] (an [int]), or a [float64]. *)
Inductive driverValue : Type :=
| ValueNil
| ValueInt (n : Z)
| ValueFloat (f : float).

(** [Value] implements [driver.Valuer]. *)
Definition Value (m : Measure) : driverValue * option error :=
  if IsTrace m || IsEmpty m then (ValueNil, None)
  else if IsZero m then (ValueInt 0, None)
  else (ValueFloat (amount m), None).

(** [strings.Replace(s, old, new, -1)], which is
    [strings.ReplaceAll(s, old, new)], for a non-empty [old]: every
    non-overlapping instance of [old], from the left, becomes [new].
    [skip] bytes of the instance just replaced are still to be stepped
    over. *)
Fixpoint replaceFrom (skip : nat) (s old new : string) : string :=
  match s with
  | EmptyString => EmptyString
  | String c s' =>
      match skip with
      | S k => replaceFrom k s' old new
      | O =>
          if String.prefix old s
          then String.append new
                 (replaceFrom (String.length old - 1) s' old new)
          else String c (replaceFrom 0 s' old new)
      end
  end.

Definition ReplaceAll (s old new : string) : string := replaceFrom 0 s old new.

Definition doubleQuote : string := String quoteChar EmptyString.

(** [CSVString]: double quotes become single quotes. *)
Definition CSVString (str : string) : string := ReplaceAll str doubleQuote "'".

(** [db.String]: single quotes are doubled. *)
Definition dbString (str : string) : string := ReplaceAll str "'" "''".

(** The body of a quoted SQL string in which every single quote is one of
    a pair. *)
Fixpoint quotesPaired (s : string) : bool :=
  match s with
  | EmptyString => true
  | String c s' =>
      if Ascii.eqb c "'"
      then match s' with
           | String c' s'' => Ascii.eqb c' "'" && quotesPaired s''
           | EmptyString => false
           end
      else quotesPaired s'
  end.

Section PipelineText.
Context {json : EncodingJSON} {bytesLib : Bytes}.

(** What the page loop writes to the cache file for a response body: the
    body without surrounding white space and without its brackets. *)
Definition stripBrackets (body : bytes) : bytes :=
  TrimSuffix (TrimPrefix (TrimSpace body) "[") "]".

(** What the page loop writes for a sequence of response bodies: a comma
    before each but the first written. *)
Fixpoint cacheText (first : bool) (bodies : list bytes) : string :=
  match bodies with
  | [] => ""
  | body :: bodies' =>
      (if first then "" else ",") +:+ stripBrackets body
      +:+ cacheText false bodies'
  end.

(** The world after an iteration of the page loop that fetched and
    decoded [body]. *)
Definition pageWorld (appToken cacheFile : string) (st : LoopState)
    (body : bytes) : World :=
  let w := logRequest (world st) (pageRequest appToken (offset st)) in
  let w := if firstLoop st then w else fileWrite w cacheFile "," in
  fileWrite w cacheFile (stripBrackets body).

(** The endpoint answers the page request at offset [off] with status
    200 and a body that is read in full and decodes to [batch]. *)
Definition servesPage (w : World) (appToken : string) (off : Z)
    (body : bytes) (batch : list Brand) : Prop :=
  ∃ status : string,
    remote w (pageRequest appToken off) = Response StatusOK status body false
    ∧ UnmarshalBrands body = Some batch.

End PipelineText.

(** [w'] is [w] after [m] page requests from offset [off] on, as far as
    the page loop on cache file [cacheFile] can change it: the same
    endpoint, clock, root and permissions, the same files elsewhere, the
    cache file still there if it was, and [m] more requests, at offsets
    [off], [off + limit], ... *)
Definition ranPages (appToken cacheFile : string) (off : Z) (m : nat)
    (w w' : World) : Prop :=
  remote w' = remote w ∧ now w' = now w ∧ dankRoot w' = dankRoot w
  ∧ mkdirOK w' = mkdirOK w ∧ createOK w' = createOK w
  ∧ (∀ p : string, p ≠ cacheFile → files w' !! p = files w !! p)
  ∧ (is_Some (files w !! cacheFile) → is_Some (files w' !! cacheFile))
  ∧ requests w'
    = requests w
      ++ map (λ j : nat, pageRequest appToken (off + Z.of_nat j * batchLimit))
           (seq 0 m).

(** The world in which a run of the page loop ends. *)
Definition endWorld (res : LoopState + error * World) : World :=
  match res with
  | inl st => world st
  | inr (_, w) => w
  end.

(** [time.Time.Format] with the layout of the export. *)
Class TimeFormat : Type := {
  (** [t.Format("2006-01-02T15:04:05-0700")]. *)
  FormatTime : Z → string
}.

Definition newline : string := String "010" EmptyString.

(** [fmt.Sprintf] of the verb [%s] between double quotes, and between
    single quotes. *)
Definition csvQuoted (x : string) : string := doubleQuote +:+ x +:+ doubleQuote.
Definition sqlQuoted (x : string) : string := "'" +:+ x +:+ "'".

(** The column names of the literal that [CSVHeaders] returns. *)
Definition csvHeaderNames : list string :=
  [ "brand_name";
    "dosage_form";
    "branding_entity";
    "product_image_url";
    "product_image_desc";
    "label_image_url";
    "label_image_desc";
    "lab_analysis_url";
    "lab_analysis_desc";
    "approval_date";
    "registration_number";
    "tetrahydrocannabinol_thc";
    "tetrahydrocannabinol_acid_thca";
    "cannabidiols_cbd";
    "cannabidiol_acid_cbda";
    "a_pinene";
    "b_myrcene";
    "b_caryophyllene";
    "b_pinene";
    "limonene";
    "ocimene";
    "linalool_lin";
    "humulene_hum";
    "cbg";
    "cbg_a";
    "cannabavarin_cbdv";
    "cannabichromene_cbc";
    "cannbinol_cbn";
    "tetrahydrocannabivarin_thcv";
    "a_bisabolol";
    "a_phellandrene";
    "a_terpinene";
    "b_eudesmol";
    "b_terpinene";
    "fenchone";
    "pulegol";
    "borneol";
    "isopulegol";
    "carene";
    "camphene";
    "camphor";
    "caryophyllene_oxide";
    "cedrol";
    "eucalyptol";
    "geraniol";
    "guaiol";
    "geranyl_acetate";
    "isoborneol";
    "menthol";
    "l_fenchone";
    "nerol";
    "sabinene";
    "terpineol";
    "terpinolene";
    "trans_b_farnesene";
    "valencene";
    "a_cedrene";
    "a_farnesene";
    "b_farnesene";
    "cis_nerolidol";
    "fenchol";
    "trans_nerolidol";
    "market";
    "chemotype";
    "processing_technique";
    "solvents_used";
    "national_drug_code" ].

(** [CSVHeaders]: the names between double quotes, separated by commas,
    and a line feed. *)
Definition CSVHeaders : string :=
  String.concat "," (map csvQuoted csvHeaderNames) +:+ newline.

(** The JSON names of the [Measure] fields of [Brand], from the struct
    tags, in declaration order. *)
Definition measureJSONNames : list string :=
  [ "tetrahydrocannabinol_thc";
    "tetrahydrocannabinol_acid_thca";
    "cannabidiols_cbd";
    "cannabidiol_acid_cbda";
    "a_pinene";
    "b_myrcene";
    "b_caryophyllene";
    "b_pinene";
    "limonene";
    "ocimene";
    "linalool_lin";
    "humulene_hum";
    "cbg";
    "cbg_a";
    "cannabavarin_cbdv";
    "cannabichromene_cbc";
    "cannbinol_cbn";
    "tetrahydrocannabivarin_thcv";
    "a_bisabolol";
    "a_phellandrene";
    "a_terpinene";
    "b_eudesmol";
    "b_terpinene";
    "fenchone";
    "pulegol";
    "borneol";
    "isopulegol";
    "carene";
    "camphene";
    "camphor";
    "caryophyllene_oxide";
    "cedrol";
    "eucalyptol";
    "geraniol";
    "guaiol";
    "geranyl_acetate";
    "isoborneol";
    "menthol";
    "l_fenchone";
    "nerol";
    "sabinene";
    "terpineol";
    "terpinolene";
    "trans_b_farnesene";
    "valencene";
    "a_cedrene";
    "a_farnesene";
    "b_farnesene";
    "cis_nerolidol";
    "fenchol";
    "trans_nerolidol" ].

(** The statement text of [DBInsertBrands]. *)
Definition sqlHeader : string :=
  "INSERT INTO brands_us_ct (
brand_name,dosage_form,branding_entity,product_image_url,product_image_desc,label_image_url,
lavel_image_desc,lab_analysis_url,lab_analysis_desc,approval_date,registration_number,
tetrahydrocannabinol_thc,tetrahydrocannabinol_acid_thca,cannabidiols_cbd,cannabidiol_acid_cbda,
a_pinene,b_myrcene,b_caryophyllene,b_pinene,limonene,ocimene,linalool_lin,humulene_hum,cbg,
cbg_a,cannabavarin_cbdv,cannabichromene_cbc,cannbinol_cbn,tetrahydrocannabivarin_thcv,a_bisabolol,
a_phellandrene,a_terpinene,b_eudesmol,b_terpinene,fenchone,pulegol,borneol,isopulegol,carene,
camphene,camphor,caryophyllene_oxide,cedrol,eucalyptol,geraniol,guaiol,geranyl_acetate,isoborneol,
menthol,l_fenchone,nerol,sabinene,terpineol,terpinolene,trans_b_farnesene,valencene,a_cedrene,
a_farnesene,b_farnesene,cis_nerolidol,fenchol,trans_nerolidol,market,chemotype,processing_technique,
solvents_used,national_drug_code)
VALUES ".

Definition sqlFooter : string := " ON CONFLICT DO NOTHING;".

Section Exporting.
Context {fmt : Fmt} {timefmt : TimeFormat}.

(** The arguments of the [fmt.Sprintf] call of [CSVValue], each as its
    verb prints it: the format is 67 verbs [%s] separated by commas, the
    first eleven and the last five between double quotes. *)
Definition csvFields (b : Brand) : list string :=
  [ csvQuoted (CSVString (b.(BrandName)));
    csvQuoted (CSVString (b.(DosageForm)));
    csvQuoted (CSVString (b.(BrandingEntity)));
    csvQuoted (CSVString (URL (b.(ProductImage))));
    csvQuoted (CSVString (Description (b.(ProductImage))));
    csvQuoted (CSVString (URL (b.(LabelImage))));
    csvQuoted (CSVString (Description (b.(LabelImage))));
    csvQuoted (CSVString (URL (b.(LabAnalysis))));
    csvQuoted (CSVString (Description (b.(LabAnalysis))));
    csvQuoted (FormatTime (b.(ApprovalDate)));
    csvQuoted (CSVString (b.(RegistrationNumber)));
    AsCSV (b.(TetrahydrocannabinolThc));
    AsCSV (b.(TetrahydrocannabinolAcidThca));
    AsCSV (b.(CannabidiolsCbd));
    AsCSV (b.(CannabidiolAcidCbda));
    AsCSV (b.(APinene));
    AsCSV (b.(BMyrcene));
    AsCSV (b.(BCaryophyllene));
    AsCSV (b.(BPinene));
    AsCSV (b.(Limonene));
    AsCSV (b.(Ocimene));
    AsCSV (b.(LinaloolLin));
    AsCSV (b.(HumuleneHum));
    AsCSV (b.(Cbg));
    AsCSV (b.(CbgA));
    AsCSV (b.(CannabavarinCbdv));
    AsCSV (b.(CannabichromeneCbc));
    AsCSV (b.(CannbinolCbn));
    AsCSV (b.(TetrahydrocannabivarinThcv));
    AsCSV (b.(ABisabolol));
    AsCSV (b.(APhellandrene));
    AsCSV (b.(ATerpinene));
    AsCSV (b.(BEudesmol));
    AsCSV (b.(BTerpinene));
    AsCSV (b.(Fenchone));
    AsCSV (b.(Pulegol));
    AsCSV (b.(Borneol));
    AsCSV (b.(Isopulegol));
    AsCSV (b.(Carene));
    AsCSV (b.(Camphene));
    AsCSV (b.(Camphor));
    AsCSV (b.(CaryophylleneOxide));
    AsCSV (b.(Cedrol));
    AsCSV (b.(Eucalyptol));
    AsCSV (b.(Geraniol));
    AsCSV (b.(Guaiol));
    AsCSV (b.(GeranylAcetate));
    AsCSV (b.(Isoborneol));
    AsCSV (b.(Menthol));
    AsCSV (b.(LFenchone));
    AsCSV (b.(Nerol));
    AsCSV (b.(Sabinene));
    AsCSV (b.(Terpineol));
    AsCSV (b.(Terpinolene));
    AsCSV (b.(TransBFarnesene));
    AsCSV (b.(Valencene));
    AsCSV (b.(ACedrene));
    AsCSV (b.(AFarnesene));
    AsCSV (b.(BFarnesene));
    AsCSV (b.(CisNerolidol));
    AsCSV (b.(Fenchol));
    AsCSV (b.(TransNerolidol));
    csvQuoted (CSVString (b.(Market)));
    csvQuoted (CSVString (b.(Chemotype)));
    csvQuoted (CSVString (b.(ProcessingTechnique)));
    csvQuoted (CSVString (b.(SolventsUsed)));
    csvQuoted (CSVString (b.(NationalDrugCode))) ].

(** [CSVValue]: the formatted fields and a line feed. *)
Definition CSVValue (b : Brand) : string :=
  String.concat "," (csvFields b) +:+ newline.

(** The arguments of the [fmt.Sprintf] call of [DBInsertBrands], each
    as its verb prints it: [sqlFormat] is 67 verbs [%s] separated by
    commas, the first eleven and the last five between single quotes,
    all between parentheses. *)
Definition sqlFields (b : Brand) : list string :=
  [ sqlQuoted (dbString (b.(BrandName)));
    sqlQuoted (dbString (b.(DosageForm)));
    sqlQuoted (dbString (b.(BrandingEntity)));
    sqlQuoted (dbString (URL (b.(ProductImage))));
    sqlQuoted (dbString (Description (b.(ProductImage))));
    sqlQuoted (dbString (URL (b.(LabelImage))));
    sqlQuoted (dbString (Description (b.(LabelImage))));
    sqlQuoted (dbString (URL (b.(LabAnalysis))));
    sqlQuoted (dbString (Description (b.(LabAnalysis))));
    sqlQuoted (FormatTime (b.(ApprovalDate)));
    sqlQuoted (dbString (b.(RegistrationNumber)));
    AsSQL (b.(TetrahydrocannabinolThc));
    AsSQL (b.(TetrahydrocannabinolAcidThca));
    AsSQL (b.(CannabidiolsCbd));
    AsSQL (b.(CannabidiolAcidCbda));
    AsSQL (b.(APinene));
    AsSQL (b.(BMyrcene));
    AsSQL (b.(BCaryophyllene));
    AsSQL (b.(BPinene));
    AsSQL (b.(Limonene));
    AsSQL (b.(Ocimene));
    AsSQL (b.(LinaloolLin));
    AsSQL (b.(HumuleneHum));
    AsSQL (b.(Cbg));
    AsSQL (b.(CbgA));
    AsSQL (b.(CannabavarinCbdv));
    AsSQL (b.(CannabichromeneCbc));
    AsSQL (b.(CannbinolCbn));
    AsSQL (b.(TetrahydrocannabivarinThcv));
    AsSQL (b.(ABisabolol));
    AsSQL (b.(APhellandrene));
    AsSQL (b.(ATerpinene));
    AsSQL (b.(BEudesmol));
    AsSQL (b.(BTerpinene));
    AsSQL (b.(Fenchone));
    AsSQL (b.(Pulegol));
    AsSQL (b.(Borneol));
    AsSQL (b.(Isopulegol));
    AsSQL (b.(Carene));
    AsSQL (b.(Camphene));
    AsSQL (b.(Camphor));
    AsSQL (b.(CaryophylleneOxide));
    AsSQL (b.(Cedrol));
    AsSQL (b.(Eucalyptol));
    AsSQL (b.(Geraniol));
    AsSQL (b.(Guaiol));
    AsSQL (b.(GeranylAcetate));
    AsSQL (b.(Isoborneol));
    AsSQL (b.(Menthol));
    AsSQL (b.(LFenchone));
    AsSQL (b.(Nerol));
    AsSQL (b.(Sabinene));
    AsSQL (b.(Terpineol));
    AsSQL (b.(Terpinolene));
    AsSQL (b.(TransBFarnesene));
    AsSQL (b.(Valencene));
    AsSQL (b.(ACedrene));
    AsSQL (b.(AFarnesene));
    AsSQL (b.(BFarnesene));
    AsSQL (b.(CisNerolidol));
    AsSQL (b.(Fenchol));
    AsSQL (b.(TransNerolidol));
    sqlQuoted (dbString (b.(Market)));
    sqlQuoted (dbString (b.(Chemotype)));
    sqlQuoted (dbString (b.(ProcessingTechnique)));
    sqlQuoted (dbString (b.(SolventsUsed)));
    sqlQuoted (dbString (b.(NationalDrugCode))) ].

Definition sqlTuple (b : Brand) : string :=
  "(" +:+ String.concat "," (sqlFields b) +:+ ")".

End Exporting.

(** ** The database and the ingestion driver ([main.go]) *)

Module time.
(** [time.Hour], in nanoseconds. *)
Definition Hour : Z := 3600000000000.
End time.

(** A database connection: which statements the database rejects, and
    the statements sent to it so far. *)
Record Database : Type := mkDatabase {
  rejects : string → bool;
  statements : list string
}.

(** The errors of [DBInsertBrands] and [primeData]. *)
Inductive ingestError : Type :=
| ErrDBInsertFailed                      (* "db insert failed: ..." *)
| ErrFetchFailed (cause : error)         (* "fetch failed: ..." *)
| ErrCreateCSVCache (cause : error)      (* "failed to create CSV cache file: ..." *)
| ErrInsertBrandsFailed (cause : ingestError).
                                         (* "ct.DBInsertBrands failed: ..." *)

(** [conn.Exec(query)]: whether it returned an error, and the
    connection afterwards. *)
Definition Exec (conn : Database) (query : string) : bool * Database :=
  (rejects conn query, mkDatabase (rejects conn) (statements conn ++ [query])).

Section Ingest.
Context {fmt : Fmt} {timefmt : TimeFormat}.

(** One iteration of the loop of [DBInsertBrands], on the text built so
    far and [isFirst]. *)
Definition insertStep (st : string * bool) (b : Brand) : string * bool :=
  let '(sb, isFirst) := st in
  let sb := if isFirst then sb else sb +:+ ("," +:+ newline) in
  (sb +:+ sqlTuple b, false).

Definition DBInsertBrands (conn : Database) (brands : list Brand)
  : option ingestError * Database :=
  if (length brands =? 0)%nat then (None, conn)
  else
    let '(sb, _) := fold_left insertStep brands (sqlHeader, true) in
    let sb := sb +:+ sqlFooter in
    let '(failed, conn) := Exec conn sb in
    (if failed then Some ErrDBInsertFailed else None, conn).

Context {json : EncodingJSON} {filepath : Filepath} {bytesLib : Bytes}.

(** [primeData], for the application token of the configuration, with
    the page loop of [FetchBrands] bounded by [fuel]; the log is left
    out. *)
Definition primeData (fuel : nat) (w : World) (conn : Database)
    (appToken : string) : option (option ingestError * World * Database) :=
  let maxCacheAge := 24 * time.Hour in
  match FetchBrands fuel w appToken maxCacheAge with
  | None => None
  | Some (_, Some e, w) => Some (Some (ErrFetchFailed e), w, conn)
  | Some (brands, None, w) =>
      let brands := CleanBrands brands in
      match MakeCacheFile w BRAND_CSV_FILENAME with
      | (inl e, w) => Some (Some (ErrCreateCSVCache e), w, conn)
      | (inr csvFile, w) =>
          let w := fileWrite w csvFile CSVHeaders in
          let w :=
            fold_left (λ w brand, fileWrite w csvFile (CSVValue brand))
              brands w in
          match DBInsertBrands conn brands with
          | (Some e, conn) => Some (Some (ErrInsertBrandsFailed e), w, conn)
          | (None, conn) => Some (None, w, conn)
          end
      end
  end.

End Ingest.

(** ** Instances of the library classes for evaluating examples

    Each stands for the library on the inputs named in its comment. *)

Fixpoint digitsValue (acc : Z) (s : string) : option Z :=
  match s with
  | EmptyString => Some acc
  | String c s' =>
      if isDigit c
      then digitsValue (10 * acc + (Z.of_N (N_of_ascii c) - 48)) s'
      else None
  end.

(** [strconv.ParseFloat] on non-empty strings of decimal digits denoting an
    integer below [2^53]; an error elsewhere. *)
Definition exampleParseFloat (s : string) : option float :=
  match s with
  | EmptyString => None
  | _ =>
      match digitsValue 0 s with
      | Some z =>
          if z <? 2 ^ 53 then Some (PrimFloat.of_uint63 (Uint63.of_Z z)) else None
      | None => None
      end
  end.

Definition exampleStrconv : Strconv := {| ParseFloat := exampleParseFloat |}.

(** [json.Unmarshal] into [[]Brand] on arrays of empty objects,
    [[{},{},...,{}]]: as many zero-valued brands as there are objects. *)
Definition exampleUnmarshalBrands (b : bytes) : option (list Brand) :=
  if HasPrefix b "[" && HasSuffix b "]"
  then Some (replicate (Count b "{}") zeroBrand)
  else None.

(** The denotation of a string literal without escapes: the bytes between
    the quotes. *)
Definition exampleUnquote (lit : string) : string :=
  String.substring 1 (String.length lit - 2) lit.

Definition exampleJSON : EncodingJSON :=
  {| jsonUnquote := exampleUnquote; UnmarshalBrands := exampleUnmarshalBrands |}.

(** [filepath.Join] on clean, non-empty elements. *)
Definition exampleFilepath : Filepath := {| Join := String.concat "/" |}.

(** [bytes.TrimSpace] on inputs whose leading and trailing white space is
    made of spaces, tabs, carriage returns and line feeds. *)
Definition exampleBytes : Bytes :=
  {| TrimSpace := λ b, trimRightSpace (trimLeftSpace b) |}.

(** A JSON array of [n] empty objects. *)
Fixpoint emptyObjects (n : nat) : string :=
  match n with
  | O => ""
  | S O => "{}"
  | S n' => String.append "{}," (emptyObjects n')
  end.

Definition arrayOfEmptyObjects (n : nat) : bytes :=
  String.append "[" (String.append (emptyObjects n) "]").

(** A remote collection of 5000 records, served as a full page at offset
    0 and as an empty page after it. *)
Definition exampleCollection : list Brand := replicate 5000 zeroBrand.

Definition exampleRemote (req : Request) : HttpResult :=
  if reqOffset req =? 0
  then Response 200 "200 OK" (arrayOfEmptyObjects 5000) false
  else Response 200 "200 OK" (arrayOfEmptyObjects 0) false.

(** The same endpoint, failing on its second page. *)
Definition failingRemote (req : Request) : HttpResult :=
  if reqOffset req =? 0
  then Response 200 "200 OK" (arrayOfEmptyObjects 5000) false
  else Response 500 "500 Internal Server Error" "gateway error" false.

(** A world with no file and a writable cache directory. *)
Definition exampleWorld (r : Request → HttpResult) : World :=
  mkWorld "/srv" ∅ 1000 true true r [].

Definition hour : Z := 3600 * 1000000000.
Definition minute : Z := 60 * 1000000000.

(** A world whose only file is a cache file written [age] ago. *)
Definition cachedWorld (age : Z) (canRead : bool) : World :=
  mkWorld "/srv"
    {[ "/srv/.dank/cache/us_ct_brands.json" := mkFile "[]" (100 * hour - age) canRead ]}
    (100 * hour) true true exampleRemote [].

(** An endpoint that cannot be reached, one whose collection is empty, and
    one that answers every request with a full page. *)
Definition downRemote (req : Request) : HttpResult := TransportFailure.

Definition emptyRemote (req : Request) : HttpResult :=
  Response 200 "200 OK" (arrayOfEmptyObjects 0) false.

Definition fullRemote (req : Request) : HttpResult :=
  Response 200 "200 OK" (arrayOfEmptyObjects 5000) false.

(** A world with no file in which the cache file cannot be created. *)
Definition readOnlyWorld : World :=
  mkWorld "/srv" ∅ 1000 true false exampleRemote [].

(** An instance for examples that prints every instant as the same
    date. *)
Definition exampleTimeFormat : TimeFormat :=
  {| FormatTime := λ _, "2025-01-01T00:00:00+0000" |}.

(** [fmt.Sprintf("%f", x)] on the example amounts 5 and 50. *)
Definition exampleFmt : Fmt :=
  {| Sprintf_f := λ x, if (x =? 5)%float then "5.000000" else "50.000000" |}.

(** An endpoint whose collection is two records. *)
Definition smallRemote (req : Request) : HttpResult :=
  Response 200 "200 OK" (arrayOfEmptyObjects 2) false.

(** A page body holding one record, with a brand name and a registration
    number, and an endpoint whose collection is that record. *)
Definition namedBody : bytes :=
  "[{" +:+ csvQuoted "brand_name" +:+ ":" +:+ csvQuoted "Blue Dream" +:+ ","
  +:+ csvQuoted "registration_number" +:+ ":" +:+ csvQuoted "R-101" +:+ "}]".

Definition namedRemote (req : Request) : HttpResult :=
  Response 200 "200 OK" namedBody false.

(** [encoding/json] on [namedBody]. *)
Definition namedJSON : EncodingJSON :=
  {| jsonUnquote := exampleUnquote;
     UnmarshalBrands :=
       λ b, if String.eqb b namedBody
            then Some [namedBrand "Blue Dream" "R-101"]
            else None |}.

(** A database that accepts every statement, with nothing sent yet. *)
Definition emptyDatabase : Database := mkDatabase (λ _, false) [].

(** * Properties *)

(** ** Facts on binary64 comparisons *)

Section FloatFacts.

Lemma ltb_neg_max_ltb_zero (f : float) :
  (f <? - math.MaxFloat64)%float = true → (f <? 0)%float = true.
Proof.
  rewrite !FloatAxioms.ltb_spec.
  replace (Prim2SF (- math.MaxFloat64)) with
    (S754_finite true 9007199254740991 971) by reflexivity.
  replace (Prim2SF 0) with (S754_zero false) by reflexivity.
  destruct (Prim2SF f) as [s|s| |s m e]; try destruct s;
    unfold SFltb, SFcompare;
    first [ reflexivity | intros H; discriminate H ].
Qed.

(** A value that is not below zero is not [-Inf]. *)
Lemma IsInf_neg_false (f : float) :
  (f <? 0)%float = false → math.IsInf f (-1) = false.
Proof.
  intros Hlt. unfold math.IsInf.
  replace (0 <=? -1) with false by reflexivity.
  replace (-1 <=? 0) with true by reflexivity.
  cbv beta iota delta [andb orb].
  destruct (f <? - math.MaxFloat64)%float eqn:Hmax; [|reflexivity].
  apply ltb_neg_max_ltb_zero in Hmax. congruence.
Qed.

End FloatFacts.

(** ** The states of a [Measure] *)

Lemma stateOf_Empty : stateOf NewEmptyMeasure = Empty.
Proof. reflexivity. Qed.

Lemma stateOf_Trace : stateOf NewTraceMeasure = Trace.
Proof. reflexivity. Qed.

Lemma stateOf_Zero : stateOf (NewMeasure 0) = Zero.
Proof. reflexivity. Qed.

Lemma stateOf_fifty : stateOf (NewMeasure 50) = Numeric 50.
Proof. reflexivity. Qed.

(** C3. [IsValidPercent] is true in the Empty, Zero and Trace states, and in
    the Numeric state with value [v] it is true exactly when
    [0 <= v <= 100]. *)
Theorem IsValidPercent_by_state (m : Measure) :
  IsValidPercent m =
    match stateOf m with
    | Empty | Zero | Trace => true
    | Numeric v => (0 <=? v)%float && (v <=? 100)%float
    end.
Proof.
  unfold IsValidPercent, stateOf.
  destruct (IsEmpty m), (IsZero m), (IsTrace m); reflexivity.
Qed.

(** In terms of the predicates: a measure that is empty, zero or a trace
    is a valid percentage. *)
Lemma IsValidPercent_nonnumeric (m : Measure) :
  IsEmpty m = true ∨ IsZero m = true ∨ IsTrace m = true →
  IsValidPercent m = true.
Proof.
  unfold IsValidPercent. intros [-> | [-> | ->]];
    destruct (IsZero m), (IsEmpty m); reflexivity.
Qed.

(** C5. Two measures in the Zero state are not equal for [IsEqual]: the
    Zero sentinel is NaN, and [IsEqual] compares the amounts with [==]. *)
Theorem IsEqual_Zero_Zero_false :
  stateOf (NewMeasure 0) = Zero
  ∧ IsEqual (NewMeasure 0) (NewMeasure 0) = false.
Proof. split; reflexivity. Qed.

(** [IsEqual] is false as soon as one side is in the Zero state. *)
Lemma IsEqual_IsZero_false (m other : Measure) :
  IsZero m = true → IsEqual m other = false.
Proof.
  unfold IsZero, IsEqual, math.IsNaN. rewrite !FloatAxioms.eqb_spec.
  destruct (Prim2SF (amount m)) as [s|s| |s mm e]; try reflexivity.
  - destruct s; intros H; discriminate H.
  - destruct s; intros H; discriminate H.
  - unfold SFeqb, SFcompare.
    assert (He : IntDef.Z.compare e e = Eq) by apply Z.compare_refl.
    assert (Hm : PosDef.Pos.compare_cont Eq mm mm = Eq)
      by apply Pos.compare_cont_refl.
    destruct s; rewrite He, Hm; intros H; discriminate H.
Qed.

(** C8, as stated, fails at NaN: the input is neither [== 0] nor [< 0],
    and the measure built from it is in the Zero state, not the Numeric
    one. *)
Lemma NewMeasure_NaN_counterexample :
  ¬ (∀ v : float,
       stateOf (NewMeasure v) =
         if (v =? 0)%float then Zero
         else if (v <? 0)%float then Trace
         else Numeric v).
Proof.
  intros Hall. specialize (Hall math.NaN).
  vm_compute in Hall. discriminate Hall.
Qed.

(** C8, amended. For every input [v] other than NaN, [NewMeasure v] is in
    the Zero state when [v == 0], in the Trace state when [v < 0], and
    otherwise in the Numeric state with value [v]. *)
Theorem NewMeasure_state (v : float) :
  math.IsNaN v = false →
  stateOf (NewMeasure v) =
    if (v =? 0)%float then Zero
    else if (v <? 0)%float then Trace
    else Numeric v.
Proof.
  intros Hnan. unfold NewMeasure, measureSentinelize.
  destruct (v =? 0)%float eqn:Hz; [reflexivity|].
  destruct (v <? 0)%float eqn:Hlt; [reflexivity|].
  unfold stateOf, IsEmpty, IsZero, IsTrace, measureEmptySentinel.
  cbv beta iota delta [amount].
  rewrite Hz, Hnan, (IsInf_neg_false v Hlt). reflexivity.
Qed.

Lemma NewMeasure_state_witness :
  math.IsNaN 50 = false ∧ stateOf (NewMeasure 50) = Numeric 50.
Proof. split; [reflexivity | apply (NewMeasure_state 50); reflexivity]. Defined.

(** ** Parsing measurement text *)

Section Parsing.
Context {strconv : Strconv}.

Lemma IsEmptyMeasurement_empty : IsEmptyMeasurement "" = true.
Proof. reflexivity. Qed.

(** [IsErrorMeasurement] panics on the empty string and on no other. *)
Lemma IsErrorMeasurement_panics (str : string) :
  IsErrorMeasurement str = None ↔ str = "".
Proof.
  split.
  - destruct str as [|c str]; [reflexivity|].
    unfold IsErrorMeasurement.
    destruct (1 <? Count _ _)%nat; [discriminate|].
    destruct (ContainsAny _ _); [discriminate|].
    cbn [String.get mbind option_bind].
    destruct (isLetter c); [discriminate|].
    destruct (_ || _ || _); discriminate.
  - intros ->. reflexivity.
Qed.

(** C7. Text that the empty-pattern or the error-pattern test accepts
    parses to the Empty state with no error, whatever the trace-pattern
    test says of it and whatever the number parser would make of it, and
    nothing is handed to the number parser. *)
Theorem FromString_error_pattern_Empty (m : Measure) (str : string) :
  IsEmptyMeasurement str = true ∨ IsErrorMeasurement str = Some true →
  FromString m str = Some (mkUpdate NewEmptyMeasure None []).
Proof.
  intros Hcls. unfold FromString.
  destruct (IsEmptyMeasurement str) eqn:Hempty; [reflexivity|].
  destruct Hcls as [Habs | ->]; [discriminate Habs|]. reflexivity.
Qed.

(** C10. [FromString] panics on no input: it always returns. The only
    string on which the error classifier would index out of range is the
    empty one, which the empty-pattern test answers first. *)
Theorem FromString_total (m : Measure) (str : string) :
  is_Some (FromString m str)
  ∧ (IsErrorMeasurement str = None ↔ str = "")
  ∧ IsEmptyMeasurement "" = true.
Proof.
  split; [|split; [apply IsErrorMeasurement_panics | reflexivity]].
  unfold FromString.
  destruct (IsEmptyMeasurement str) eqn:Hempty; [eauto|].
  destruct (IsErrorMeasurement str) as [isError|] eqn:Herr.
  - cbn [mbind option_bind].
    destruct isError; [eauto|].
    destruct (IsTraceMeasurement str); [eauto|].
    destruct (ParseFloat _); eauto.
  - apply IsErrorMeasurement_panics in Herr. subst str. discriminate Hempty.
Qed.

(** The text [>NaN] goes through to the number parser, which reads [NaN]
    from it: the measure ends in the Zero state. *)
Lemma FromString_NaN_text (m : Measure) :
  ParseFloat "NaN" = Some math.NaN →
  ∃ u : Update,
    FromString m ">NaN" = Some u ∧ parsed u = ["NaN"]
    ∧ stateOf (receiver u) = Zero.
Proof.
  intros Hnan. eexists. split; [|split].
  - unfold FromString.
    replace (IsEmptyMeasurement ">NaN") with false by reflexivity.
    replace (IsErrorMeasurement ">NaN") with (Some false) by reflexivity.
    cbn [mbind option_bind].
    replace (IsTraceMeasurement ">NaN") with false by reflexivity.
    replace (TrimSuffix (TrimPrefix (TrimPrefix ">NaN" ",") ">") "%")
      with "NaN" by reflexivity.
    rewrite Hnan. reflexivity.
  - reflexivity.
  - reflexivity.
Qed.

End Parsing.

(** The text [<LOQ(0.1)] matches the trace pattern and, by its
    parentheses, the error pattern. *)
Lemma FromString_error_pattern_Empty_witness :
  IsTraceMeasurement "<LOQ(0.1)" = true
  ∧ IsErrorMeasurement "<LOQ(0.1)" = Some true
  ∧ FromString (strconv := exampleStrconv) (NewMeasure 50) "<LOQ(0.1)"
    = Some (mkUpdate NewEmptyMeasure None []).
Proof.
  split; [reflexivity|]. split; [reflexivity|].
  apply (FromString_error_pattern_Empty (strconv := exampleStrconv)).
  right. reflexivity.
Defined.

(** ** Serialising to JSON and decoding again *)

Section RoundTrip.
Context {strconv : Strconv} {fmt : Fmt} {json : EncodingJSON}.

Lemma jsonScan_trace_token : jsonScan "<0.01" = JRejected.
Proof. reflexivity. Qed.

Lemma jsonScan_no_bytes : jsonScan "" = JRejected.
Proof. reflexivity. Qed.

(** C6. What [MarshalJSON] writes for a measure in the Trace state, and for
    one in the Empty state, is not JSON: [UnmarshalJSON] returns an error
    on it and leaves its receiver [m0] as it was. *)
Theorem UnmarshalJSON_MarshalJSON_Trace_Empty (m0 : Measure) :
  stateOf NewTraceMeasure = Trace
  ∧ MarshalJSON NewTraceMeasure = ("<0.01", None)
  ∧ UnmarshalJSON m0 "<0.01" = Some (mkUpdate m0 (Some ErrUnmarshalMeasure) [])
  ∧ stateOf NewEmptyMeasure = Empty
  ∧ MarshalJSON NewEmptyMeasure = ("", None)
  ∧ UnmarshalJSON m0 "" = Some (mkUpdate m0 (Some ErrUnmarshalMeasure) []).
Proof. repeat split. Qed.

(** The Zero state does come back, given that the number parser reads [0]
    as zero; the two measures are still not equal for [IsEqual]. *)
Lemma UnmarshalJSON_MarshalJSON_Zero (m0 : Measure) :
  ParseFloat "0" = Some 0%float →
  MarshalJSON (NewMeasure 0) = ("0", None)
  ∧ UnmarshalJSON m0 "0" = Some (mkUpdate (NewMeasure 0) None [])
  ∧ IsEqual (NewMeasure 0) (NewMeasure 0) = false.
Proof.
  intros Hzero. split; [reflexivity|]. split; [|reflexivity].
  unfold UnmarshalJSON, jsonUnmarshalString, jsonUnmarshalFloat64.
  replace (jsonScan "0") with (JNumber "0") by reflexivity.
  cbn [String.eqb Ascii.eqb Bool.eqb]. rewrite Hzero. reflexivity.
Qed.

End RoundTrip.

(** ** The record validator *)

Section DeleteFunc.
Context {E : Type} (del : E → bool).

Local Abbreviation keep := (λ x : E, negb (del x)).

Lemma indexFrom_none (i : Z) (s : list E) :
  0 ≤ i → slices.indexFrom i s del = -1 → List.filter keep s = s.
Proof.
  revert i. induction s as [|v s IH]; intros i Hi Hidx; [reflexivity|].
  cbn in Hidx |- *. destruct (del v); [lia|].
  cbn. f_equal. apply (IH (i + 1)); [lia | exact Hidx].
Qed.

Lemma indexFrom_some (i : Z) (s : list E) :
  0 ≤ i → slices.indexFrom i s del ≠ -1 →
  ∃ (n : nat) (v : E),
    slices.indexFrom i s del = i + Z.of_nat n
    ∧ s !! n = Some v ∧ del v = true
    ∧ List.filter keep (take n s) = take n s.
Proof.
  revert i. induction s as [|v s IH]; intros i Hi Hidx; [done|].
  cbn in Hidx |- *. destruct (del v) eqn:Hv.
  - exists 0%nat, v. repeat split; [lia | exact Hv].
  - destruct (IH (i + 1)) as (n & x & Hn & Hx & Hdel & Hkeep); [lia | exact Hidx |].
    exists (S n), x. repeat split; [lia | exact Hx | exact Hdel |].
    cbn. rewrite Hv. cbn. f_equal. exact Hkeep.
Qed.

(** The copying loop, from index [j] on: the first [c] cells hold the
    kept elements among the first [j] of the original array [s0], and the
    cells from [j] on are untouched. *)
Lemma deleteStep_loop (s0 : list E) (n : nat) :
  ∀ (j c : nat) (s : list E),
    length s = length s0 → (c ≤ j)%nat → (j + n = length s0)%nat →
    take c s = List.filter keep (take j s0) →
    drop j s = drop j s0 →
    ∃ (s' : list E) (c' : nat),
      foldl (slices.deleteStep del) (s, c) (seq j n) = (s', c')
      ∧ (c' ≤ length s')%nat
      ∧ take c' s' = List.filter keep s0.
Proof.
  induction n as [|n IH]; intros j c s Hlen Hcj Hjn Htake Hdrop.
  - exists s, c. split; [reflexivity|]. split; [lia|].
    rewrite Htake. f_equal. apply take_ge. lia.
  - cbn [seq foldl].
    assert (Hj : is_Some (s0 !! j)) by (apply lookup_lt_is_Some; lia).
    destruct Hj as [v Hv].
    assert (Hsv : s !! j = Some v).
    { rewrite <- (Nat.add_0_r j), <- lookup_drop, Hdrop, lookup_drop.
      rewrite Nat.add_0_r. exact Hv. }
    assert (Hdrop' : drop (S j) s = drop (S j) s0).
    { replace (S j) with (j + 1)%nat by lia.
      rewrite <- !drop_drop. by rewrite Hdrop. }
    unfold slices.deleteStep at 2. rewrite Hsv.
    destruct (del v) eqn:Hdel.
    + apply IH; [exact Hlen | lia | lia | | exact Hdrop'].
      rewrite (take_S_r _ _ _ Hv), List.filter_app. cbn. rewrite Hdel. cbn.
      by rewrite app_nil_r.
    + apply IH; [by rewrite length_insert | lia | lia | |].
      * rewrite (take_S_r _ _ v).
        2:{ apply list_lookup_insert_eq. lia. }
        rewrite take_insert_ge by lia.
        rewrite (take_S_r _ _ _ Hv), List.filter_app. cbn. rewrite Hdel. cbn.
        by rewrite Htake.
      * rewrite drop_insert_lt by lia. exact Hdrop'.
Qed.

(** [slices.DeleteFunc] returns the elements that [del] rejects, in their
    original order. *)
Lemma DeleteFunc_filter (zero : E) (s : list E) :
  slices.DeleteFunc zero s del = List.filter keep s.
Proof.
  unfold slices.DeleteFunc, slices.IndexFunc.
  destruct (slices.indexFrom 0 s del =? -1) eqn:Hidx.
  - symmetry. apply (indexFrom_none 0); lia.
  - destruct (indexFrom_some 0 s) as (n & v & Hn & Hv & Hdel & Hkeep); [lia | lia |].
    rewrite Hn. replace (Z.to_nat (0 + Z.of_nat n)) with n by lia.
    assert (Hlt : (n < length s)%nat) by (eapply lookup_lt_Some; exact Hv).
    destruct (deleteStep_loop s (length s - (n + 1)) (n + 1) n s)
      as (s' & c' & Hfold & Hc' & Htake); [reflexivity | lia | lia | | reflexivity |].
    { replace (n + 1)%nat with (S n) by lia.
      rewrite (take_S_r _ _ _ Hv), List.filter_app. cbn. rewrite Hdel. cbn.
      by rewrite app_nil_r, Hkeep. }
    rewrite Hfold.
    rewrite take_app_le by (rewrite length_take; lia).
    rewrite take_take, Nat.min_id. exact Htake.
Qed.

End DeleteFunc.

Lemma fold_left_orb {A : Type} (f : A → bool) (l : list A) (acc : bool) :
  fold_left (λ a x, a || f x) l acc = acc || existsb f l.
Proof.
  revert acc. induction l as [|x l IH]; intros acc; cbn [fold_left existsb].
  - by rewrite orb_false_r.
  - by rewrite IH, orb_assoc.
Qed.

Lemma if_true_false (c : bool) : (if c then true else false) = c.
Proof. by destruct c. Qed.

(** The chain of tests in [IsBrandErroneous] visits every [Measure] field
    of the record. *)
Lemma IsBrandErroneous_invalidByName (b : Brand) :
  IsBrandErroneous b = invalidByName b.
Proof.
  unfold invalidByName.
  rewrite <- (orb_false_l (existsb _ _)), <- fold_left_orb.
  unfold IsBrandErroneous.
  destruct (String.eqb (BrandName b) ""); [reflexivity|].
  rewrite if_true_false. reflexivity.
Qed.

(** C4, as stated, fails: a record with a name and an empty registration
    number is kept, and a record with a registration number and no name
    is dropped. *)
Lemma CleanBrands_registration_counterexample :
  ¬ (∀ bs : list Brand,
       CleanBrands bs = List.filter (λ b, negb (invalidByRegistration b)) bs).
Proof.
  intros Hall. specialize (Hall [namedBrand "Blue Dream" ""]).
  vm_compute in Hall. discriminate Hall.
Qed.

Lemma CleanBrands_drops_unnamed :
  CleanBrands [namedBrand "" "R-100"; namedBrand "Blue Dream" "R-101"]
  = [namedBrand "Blue Dream" "R-101"].
Proof. vm_compute. reflexivity. Qed.

(** C4, amended. [CleanBrands] returns, in their original order and
    unchanged, exactly the records that have a non-empty brand name and
    whose measurement fields all pass [IsValidPercent]. *)
Theorem CleanBrands_filter (bs : list Brand) :
  CleanBrands bs = List.filter (λ b, negb (invalidByName b)) bs
  ∧ (∀ b : Brand,
       In b (CleanBrands bs) ↔
       In b bs ∧ BrandName b ≠ ""
       ∧ Forall (λ m, IsValidPercent m = true) (BrandMeasures b)).
Proof.
  assert (Heq : CleanBrands bs = List.filter (λ b, negb (invalidByName b)) bs).
  { unfold CleanBrands. rewrite DeleteFunc_filter.
    apply List.filter_ext. intros b. by rewrite IsBrandErroneous_invalidByName. }
  split; [exact Heq|].
  intros b. rewrite Heq, List.filter_In. unfold invalidByName.
  rewrite negb_true_iff, orb_false_iff.
  assert (Hname : String.eqb (BrandName b) "" = false ↔ BrandName b ≠ "").
  { destruct (String.eqb_spec (BrandName b) ""); split; congruence. }
  assert (Hall : existsb (λ m, negb (IsValidPercent m)) (BrandMeasures b) = false
                 ↔ Forall (λ m, IsValidPercent m = true) (BrandMeasures b)).
  { induction (BrandMeasures b) as [|m ms IH]; cbn [existsb].
    - split; [constructor | reflexivity].
    - rewrite orb_false_iff, negb_false_iff, Forall_cons, IH. reflexivity. }
  rewrite Hname, Hall. reflexivity.
Qed.

(** ** The cache file check *)

Section Cache.
Context {filepath : Filepath}.

(** C9, amended. [CheckCacheFile] fails with "not found" when no file has
    the cache path name; fails with "too old" when [maxAge] is not zero
    and the file's age exceeds it; and otherwise, which includes every
    age when [maxAge] is zero, returns the file's contents if they can
    be read and fails with a read error if they cannot. *)
Theorem CheckCacheFile_cases (w : World) (filename : string) (maxAge : Z) :
  let path := GetDankCachePathname w filename in
  (files w !! path = None →
     CheckCacheFile w filename maxAge = ("", Some ErrCacheNotFound))
  ∧ (∀ f : File, files w !! path = Some f →
       maxAge ≠ 0 → maxAge < now w - ModTime f →
       CheckCacheFile w filename maxAge = ("", Some ErrCacheTooOld))
  ∧ (∀ f : File, files w !! path = Some f →
       maxAge = 0 ∨ now w - ModTime f ≤ maxAge →
       CheckCacheFile w filename maxAge =
         if readable f then (fileData f, None) else ("", Some ErrCacheRead)).
Proof.
  unfold GetDankCachePathname, CheckCacheFile, CacheDir. cbv zeta.
  split; [|split].
  - intros ->. reflexivity.
  - intros f -> Hne Hage.
    replace (maxAge =? 0) with false by (symmetry; apply Z.eqb_neq; exact Hne).
    replace (ModTime f + maxAge <? now w) with true
      by (symmetry; apply Z.ltb_lt; lia).
    reflexivity.
  - intros f -> Hfresh.
    destruct (maxAge =? 0) eqn:Hzero; [reflexivity|].
    apply Z.eqb_neq in Hzero.
    replace (ModTime f + maxAge <? now w) with false
      by (symmetry; apply Z.ltb_ge; lia).
    reflexivity.
Qed.

End Cache.

(** C9, as stated, fails on a cache file that exists, is fresh, and cannot
    be read: the check returns a read error, not the contents. *)
Lemma CheckCacheFile_unreadable_counterexample :
  ¬ (∀ (w : World) (filename : string) (maxAge : Z) (f : File),
       files w !! GetDankCachePathname (filepath := exampleFilepath) w filename
         = Some f →
       maxAge = 0 ∨ now w - ModTime f ≤ maxAge →
       CheckCacheFile (filepath := exampleFilepath) w filename maxAge
       = (fileData f, None)).
Proof.
  intros Hall.
  specialize (Hall (cachedWorld (30 * minute) false) BRAND_JSON_FILENAME hour
                (mkFile "[]" (100 * hour - 30 * minute) false)).
  assert (Hget : CheckCacheFile (filepath := exampleFilepath)
                   (cachedWorld (30 * minute) false) BRAND_JSON_FILENAME hour
                 = ("", Some ErrCacheRead)) by (vm_compute; reflexivity).
  rewrite Hget in Hall.
  discriminate Hall; [vm_compute; reflexivity | right; vm_compute; discriminate].
Qed.

(** With a maximum age of one hour, a readable cache file written thirty
    minutes ago is returned and one written ninety minutes ago is stale;
    with a maximum age of zero the older one is returned too. *)
Lemma CheckCacheFile_thirty_minutes :
  CheckCacheFile (filepath := exampleFilepath)
    (cachedWorld (30 * minute) true) BRAND_JSON_FILENAME hour
  = ("[]", None).
Proof. vm_compute. reflexivity. Qed.

Lemma CheckCacheFile_ninety_minutes :
  CheckCacheFile (filepath := exampleFilepath)
    (cachedWorld (90 * minute) true) BRAND_JSON_FILENAME hour
  = ("", Some ErrCacheTooOld).
Proof. vm_compute. reflexivity. Qed.

Lemma CheckCacheFile_no_maximum_age :
  CheckCacheFile (filepath := exampleFilepath)
    (cachedWorld (90 * minute) true) BRAND_JSON_FILENAME 0
  = ("[]", None).
Proof. vm_compute. reflexivity. Qed.

(** ** The page loop of [FetchBrands] *)

Section PageLoop.
Context {json : EncodingJSON} {filepath : Filepath} {bytesLib : Bytes}.

Lemma batchLimit_pos : 0 < batchLimit.
Proof. reflexivity. Qed.

Lemma remote_logRequest (w : World) (r : Request) :
  remote (logRequest w r) = remote w.
Proof. reflexivity. Qed.

Lemma pageOutcome_remote (w w' : World) (appToken : string) (off : Z) :
  remote w' = remote w →
  pageOutcome w' appToken off = pageOutcome w appToken off.
Proof. unfold pageOutcome. by intros ->. Qed.

(** A page request that fails makes the iteration return its error. *)
Lemma fetchPage_error (appToken cacheFile : string) (st : LoopState) (e : error) :
  pageOutcome (world st) appToken (offset st) = inl e →
  fetchPage appToken cacheFile st
  = Return e (logRequest (world st) (pageRequest appToken (offset st))).
Proof.
  unfold pageOutcome, fetchPage. cbv zeta. rewrite remote_logRequest.
  destruct (remote (world st) _) as [|code status body bodyErr].
  - by intros [= <-].
  - destruct bodyErr, (negb (code =? StatusOK)); try by intros [= <-].
    destruct (UnmarshalBrands body); [discriminate | by intros [= <-]].
Qed.

(** A page request that succeeds appends its batch, and the iteration
    breaks or goes on according to the size of the batch alone. *)
Lemma fetchPage_batch (appToken cacheFile : string) (st : LoopState)
    (batch : list Brand) :
  pageOutcome (world st) appToken (offset st) = inr batch →
  ∃ w' : World,
    remote w' = remote (world st)
    ∧ requests w' = requests (world st) ++ [pageRequest appToken (offset st)]
    ∧ fetchPage appToken cacheFile st
      = if Z.of_nat (length batch) <? batchLimit
        then Break (mkLoopState (brands st ++ batch) (offset st) false w')
        else Next (mkLoopState (brands st ++ batch) (offset st + batchLimit)
                     false w').
Proof.
  unfold pageOutcome, fetchPage. cbv zeta. rewrite remote_logRequest.
  destruct (remote (world st) _) as [|code status body bodyErr]; [discriminate|].
  destruct bodyErr, (negb (code =? StatusOK)); try discriminate.
  destruct (UnmarshalBrands body) as [brandsBatch|]; [|discriminate].
  intros [= ->].
  eexists. split; [|split; [|reflexivity]]; by destruct (firstLoop st).
Qed.

(** The loop breaks in an iteration exactly when the page fetched in it
    holds fewer records than the limit. *)
Lemma fetchPage_Break_iff (appToken cacheFile : string) (st : LoopState) :
  (∃ st', fetchPage appToken cacheFile st = Break st')
  ↔ (∃ batch, pageOutcome (world st) appToken (offset st) = inr batch
              ∧ Z.of_nat (length batch) < batchLimit).
Proof.
  destruct (pageOutcome (world st) appToken (offset st)) as [e|batch] eqn:Hout.
  - rewrite (fetchPage_error _ _ _ _ Hout). split.
    + intros [st' Habs]. discriminate Habs.
    + intros (batch & Habs & _). discriminate Habs.
  - destruct (fetchPage_batch _ cacheFile _ _ Hout) as (w' & _ & _ & ->).
    destruct (Z.of_nat (length batch) <? batchLimit) eqn:Hlen.
    + apply Z.ltb_lt in Hlen. split; [|eauto].
      intros _. exists batch. by split.
    + apply Z.ltb_ge in Hlen. split.
      * intros [st' Habs]. discriminate Habs.
      * intros (batch' & [= <-] & Hlt). lia.
Qed.

(** [n] full pages in a row: the loop goes through [n] iterations, and
    has by then appended the [n] batches, advanced the offset by [n]
    limits and issued [n] requests. *)
Lemma fetchLoop_full_pages (appToken cacheFile : string)
    (batches : nat → list Brand) (n : nat) :
  ∀ (st : LoopState) (fuel : nat),
    (∀ j : nat, (j < n)%nat →
       pageOutcome (world st) appToken (offset st + Z.of_nat j * batchLimit)
         = inr (batches j)
       ∧ batchLimit ≤ Z.of_nat (length (batches j))) →
    ∃ st' : LoopState,
      fetchLoop (n + fuel) appToken cacheFile st
        = fetchLoop fuel appToken cacheFile st'
      ∧ brands st' = brands st ++ concat (map batches (seq 0 n))
      ∧ offset st' = offset st + Z.of_nat n * batchLimit
      ∧ remote (world st') = remote (world st)
      ∧ requests (world st')
        = requests (world st)
          ++ map (λ j : nat,
                    pageRequest appToken (offset st + Z.of_nat j * batchLimit))
               (seq 0 n).
Proof.
  induction n as [|n IH]; intros st fuel Hpages.
  - exists st. cbn [seq map concat Nat.add].
    rewrite !app_nil_r. repeat split; lia.
  - destruct (IH st (S fuel)) as (st1 & Hrun & Hbrands & Hoff & Hremote & Hreqs).
    { intros j Hj. apply Hpages. lia. }
    destruct (Hpages n) as [Hout Hfull]; [lia|].
    rewrite <- Hoff, <- (pageOutcome_remote _ _ _ _ Hremote) in Hout.
    destruct (fetchPage_batch _ cacheFile _ _ Hout) as (w' & Hrem' & Hreq' & Hstep).
    replace (Z.of_nat (length (batches n)) <? batchLimit) with false in Hstep
      by (symmetry; apply Z.ltb_ge; exact Hfull).
    eexists. split; [|split; [|split; [|split]]].
    + replace (S n + fuel)%nat with (n + S fuel)%nat by lia.
      rewrite Hrun. cbn [fetchLoop]. rewrite Hstep. reflexivity.
    + cbn [brands]. rewrite Hbrands, seq_S, map_app, concat_app.
      cbn [map concat Nat.add]. by rewrite app_nil_r, app_assoc.
    + cbn [offset]. lia.
    + cbn [world]. congruence.
    + cbn [world]. rewrite Hreq', Hreqs, Hoff, seq_S, map_app.
      cbn [map Nat.add]. by rewrite app_assoc.
Qed.

(** The pages of a collection of [k] limits, put end to end, are the
    collection. *)
Lemma concat_pages (coll : list Brand) (k : nat) :
  length coll = (k * Z.to_nat batchLimit)%nat →
  concat (map (λ j : nat, page batchLimit coll (Z.of_nat j * batchLimit))
            (seq 0 k))
  = coll.
Proof.
  intros Hlen.
  assert (Hk : ∀ n : nat,
            concat (map (λ j : nat, page batchLimit coll (Z.of_nat j * batchLimit))
                      (seq 0 n))
            = take (n * Z.to_nat batchLimit) coll).
  { induction n as [|n IH]; [reflexivity|].
    rewrite seq_S, map_app, concat_app, IH. cbn [map concat Nat.add].
    rewrite app_nil_r. unfold page.
    replace (Z.to_nat (Z.of_nat n * batchLimit))
      with (n * Z.to_nat batchLimit)%nat
      by (pose proof batchLimit_pos; rewrite Z2Nat.inj_mul, Nat2Z.id; lia).
    rewrite take_take_drop. f_equal. lia. }
  rewrite Hk. apply take_ge. lia.
Qed.

Lemma page_full (coll : list Brand) (k j : nat) :
  length coll = (k * Z.to_nat batchLimit)%nat → (j < k)%nat →
  batchLimit ≤ Z.of_nat (length (page batchLimit coll (Z.of_nat j * batchLimit))).
Proof.
  intros Hlen Hj. pose proof batchLimit_pos as Hpos. unfold page.
  rewrite length_take, length_drop, Hlen.
  replace (Z.to_nat (Z.of_nat j * batchLimit))
    with (j * Z.to_nat batchLimit)%nat
    by (rewrite Z2Nat.inj_mul, Nat2Z.id; lia).
  nia.
Qed.

Lemma page_past_end (coll : list Brand) (k : nat) :
  length coll = (k * Z.to_nat batchLimit)%nat →
  page batchLimit coll (Z.of_nat k * batchLimit) = [].
Proof.
  intros Hlen. pose proof batchLimit_pos as Hpos. unfold page.
  rewrite drop_ge; [by rewrite take_nil|].
  rewrite Z2Nat.inj_mul, Nat2Z.id; lia.
Qed.

End PageLoop.

(** ** [FetchBrands] on a remote collection, and on a failing endpoint *)

Section Fetch.
Context {json : EncodingJSON} {filepath : Filepath} {bytesLib : Bytes}.

(** [FetchBrands] past its cache check and the creation of the cache
    file: the page loop starts at offset 0 on the created file. *)
Lemma FetchBrands_network (fuel : nat) (w : World) (appToken : string)
    (maxCacheAge : Z) :
  cachedBrands w maxCacheAge = None →
  mkdirOK w = true → createOK w = true →
  let cacheFile := GetDankCachePathname w BRAND_JSON_FILENAME in
  FetchBrands fuel w appToken maxCacheAge
  = match fetchLoop fuel appToken cacheFile
            (mkLoopState [] 0 true
               (fileWrite (osCreate w cacheFile) cacheFile "[")) with
    | None => None
    | Some (inr (e, w')) => Some ([], Some e, deferred true cacheFile w')
    | Some (inl st) =>
        Some (brands st, None,
              deferred false cacheFile (fileWrite (world st) cacheFile "]"))
    end.
Proof.
  intros Hmiss Hmkdir Hcreate. unfold FetchBrands, MakeCacheFile.
  rewrite Hmiss, Hmkdir, Hcreate. reflexivity.
Qed.

(** C1. On a cache miss, against a remote collection of exactly [k] times
    the page limit (5000) that is served page by page, [FetchBrands]
    returns the whole collection and no error after issuing exactly
    [k + 1] page requests, at offsets [0], [limit], ..., [k * limit], the
    last of which fetches an empty batch; and an iteration of the page
    loop breaks exactly when the batch it fetched holds fewer records
    than the limit. *)
Theorem FetchBrands_exact_multiple (w : World) (appToken : string)
    (maxCacheAge : Z) (coll : list Brand) (k : nat) :
  length coll = (k * Z.to_nat batchLimit)%nat →
  (∀ j : nat, (j ≤ k)%nat →
     pageOutcome w appToken (Z.of_nat j * batchLimit)
     = inr (page batchLimit coll (Z.of_nat j * batchLimit))) →
  cachedBrands w maxCacheAge = None →
  mkdirOK w = true → createOK w = true →
  ∀ fuel : nat, (k < fuel)%nat →
  batchLimit = 5000
  ∧ (∃ w' : World,
       FetchBrands fuel w appToken maxCacheAge = Some (coll, None, w')
       ∧ requests w'
         = requests w
           ++ map (λ j : nat, pageRequest appToken (Z.of_nat j * batchLimit))
                (seq 0 (k + 1))
       ∧ length (requests w') = (length (requests w) + (k + 1))%nat)
  ∧ page batchLimit coll (Z.of_nat k * batchLimit) = []
  ∧ (∀ (cacheFile : string) (st : LoopState),
       (∃ st', fetchPage appToken cacheFile st = Break st')
       ↔ (∃ batch, pageOutcome (world st) appToken (offset st) = inr batch
                   ∧ Z.of_nat (length batch) < batchLimit)).
Proof.
  intros Hlen Hserves Hmiss Hmkdir Hcreate fuel Hfuel.
  split; [reflexivity|].
  split; [|split; [by apply page_past_end | apply fetchPage_Break_iff]].
  rewrite (FetchBrands_network _ _ _ _ Hmiss Hmkdir Hcreate).
  set (cacheFile := GetDankCachePathname w BRAND_JSON_FILENAME).
  set (st0 := mkLoopState [] 0 true _).
  assert (Hremote0 : remote (world st0) = remote w) by reflexivity.
  replace fuel with (k + S (fuel - k - 1))%nat by lia.
  destruct (fetchLoop_full_pages appToken cacheFile
              (λ j : nat, page batchLimit coll (Z.of_nat j * batchLimit))
              k st0 (S (fuel - k - 1)))
    as (st1 & -> & Hbrands & Hoff & Hremote & Hreqs).
  { intros j Hj. cbn [offset st0]. rewrite Z.add_0_l.
    rewrite (pageOutcome_remote _ _ _ _ Hremote0).
    split; [apply Hserves; lia | by apply (page_full coll k)]. }
  cbn [offset st0] in Hoff. rewrite Z.add_0_l in Hoff.
  assert (Hlast : pageOutcome (world st1) appToken (offset st1) = inr []).
  { rewrite (pageOutcome_remote (world st0)), (pageOutcome_remote w), Hoff
      by assumption.
    rewrite Hserves by lia. f_equal. by apply page_past_end. }
  destruct (fetchPage_batch _ cacheFile _ _ Hlast) as (w' & _ & Hreq' & Hstep).
  cbn [fetchLoop]. rewrite Hstep.
  replace (Z.of_nat (length (@nil Brand)) <? batchLimit) with true by reflexivity.
  assert (Hall : requests w'
                 = requests w
                   ++ map (λ j : nat,
                             pageRequest appToken (Z.of_nat j * batchLimit))
                        (seq 0 (k + 1))).
  { rewrite Hreq', Hreqs, Hoff, Nat.add_1_r, seq_S, map_app, app_assoc.
    reflexivity. }
  eexists. split; [|split].
  - cbn [brands]. rewrite Hbrands, app_nil_r. cbn [st0 brands app].
    by rewrite concat_pages.
  - exact Hall.
  - cbn [deferred fileWrite setFiles requests world].
    rewrite Hall, length_app, length_map, length_seq. reflexivity.
Qed.

(** C2. On a cache miss, once the cache file has been created: if the
    first [n] pages come back full and the request for the next one fails
    with error [e] (a transport error, a status other than 200, a body
    that cannot be read or does not decode), [FetchBrands] returns that
    error with a nil slice, and no file is left at the cache path
    name. *)
Theorem FetchBrands_failure_removes_cache (w : World) (appToken : string)
    (maxCacheAge : Z) (batches : nat → list Brand) (n : nat) (e : error) :
  cachedBrands w maxCacheAge = None →
  mkdirOK w = true → createOK w = true →
  (∀ j : nat, (j < n)%nat →
     pageOutcome w appToken (Z.of_nat j * batchLimit) = inr (batches j)
     ∧ batchLimit ≤ Z.of_nat (length (batches j))) →
  pageOutcome w appToken (Z.of_nat n * batchLimit) = inl e →
  ∀ fuel : nat, (n < fuel)%nat →
  ∃ w' : World,
    FetchBrands fuel w appToken maxCacheAge = Some ([], Some e, w')
    ∧ files w' !! GetDankCachePathname w BRAND_JSON_FILENAME = None
    ∧ length (requests w') = (length (requests w) + (n + 1))%nat.
Proof.
  intros Hmiss Hmkdir Hcreate Hpages Hfail fuel Hfuel.
  rewrite (FetchBrands_network _ _ _ _ Hmiss Hmkdir Hcreate).
  set (cacheFile := GetDankCachePathname w BRAND_JSON_FILENAME).
  set (st0 := mkLoopState [] 0 true _).
  assert (Hremote0 : remote (world st0) = remote w) by reflexivity.
  replace fuel with (n + S (fuel - n - 1))%nat by lia.
  destruct (fetchLoop_full_pages appToken cacheFile batches
              n st0 (S (fuel - n - 1)))
    as (st1 & -> & _ & Hoff & Hremote & Hreqs).
  { intros j Hj. cbn [offset st0]. rewrite Z.add_0_l.
    rewrite (pageOutcome_remote _ _ _ _ Hremote0). by apply Hpages. }
  cbn [offset st0] in Hoff. rewrite Z.add_0_l in Hoff.
  assert (Hlast : pageOutcome (world st1) appToken (offset st1) = inl e).
  { by rewrite (pageOutcome_remote (world st0)), (pageOutcome_remote w), Hoff. }
  cbn [fetchLoop]. rewrite (fetchPage_error _ cacheFile _ _ Hlast).
  eexists. split; [reflexivity|]. split.
  - cbn [deferred osRemove setFiles files]. apply lookup_delete_eq.
  - cbn [deferred osRemove setFiles logRequest requests].
    rewrite Hreqs, !length_app, length_map, length_seq.
    cbn [length st0 world requests fileWrite osCreate setFiles]. lia.
Qed.

(** Each kind of failure of a page request is an error of
    [pageOutcome]. *)
Lemma pageOutcome_failures (w : World) (appToken : string) (off : Z)
    (code : Z) (status : string) (body : bytes) :
  (remote w (pageRequest appToken off) = TransportFailure →
     pageOutcome w appToken off = inl ErrTransport)
  ∧ (remote w (pageRequest appToken off) = Response code status body false →
     code ≠ StatusOK →
     pageOutcome w appToken off = inl (ErrHTTP code status body))
  ∧ (remote w (pageRequest appToken off) = Response StatusOK status body false →
     UnmarshalBrands body = None →
     pageOutcome w appToken off = inl ErrUnmarshalResult).
Proof.
  unfold pageOutcome. split; [|split].
  - by intros ->.
  - intros -> Hcode. apply Z.eqb_neq in Hcode. by rewrite Hcode.
  - intros -> Hdecode. by rewrite Hdecode.
Qed.

End Fetch.

(** A collection of one full page: two requests, the second one for the
    empty page that ends the loop. *)
Lemma FetchBrands_exact_multiple_witness :
  length exampleCollection = (1 * Z.to_nat batchLimit)%nat
  ∧ ∃ w' : World,
      FetchBrands (json := exampleJSON) (filepath := exampleFilepath)
        (bytesLib := exampleBytes) 2 (exampleWorld exampleRemote) "" 0
      = Some (exampleCollection, None, w')
      ∧ length (requests w') = 2%nat.
Proof.
  split; [vm_compute; reflexivity|].
  destruct (FetchBrands_exact_multiple (json := exampleJSON)
              (filepath := exampleFilepath) (bytesLib := exampleBytes)
              (exampleWorld exampleRemote) "" 0 exampleCollection 1)
    with (fuel := 2%nat) as (_ & (w' & Hrun & _ & Hlen) & _).
  - vm_compute; reflexivity.
  - intros [|[|j]] Hj; [vm_compute; reflexivity | vm_compute; reflexivity | lia].
  - vm_compute; reflexivity.
  - reflexivity.
  - reflexivity.
  - lia.
  - exists w'. split; [exact Hrun | exact Hlen].
Defined.

(** The second page request fails with status 500 after a first full
    page has been written to the cache file: the error is returned and the
    cache file is gone. *)
Lemma FetchBrands_failure_removes_cache_witness :
  ∃ w' : World,
    FetchBrands (json := exampleJSON) (filepath := exampleFilepath)
      (bytesLib := exampleBytes) 3 (exampleWorld failingRemote) "" 0
    = Some ([], Some (ErrHTTP 500 "500 Internal Server Error" "gateway error"), w')
    ∧ files w' !! "/srv/.dank/cache/us_ct_brands.json" = None
    ∧ length (requests w') = 2%nat.
Proof.
  apply (FetchBrands_failure_removes_cache (json := exampleJSON)
           (filepath := exampleFilepath) (bytesLib := exampleBytes)
           (exampleWorld failingRemote) "" 0 (λ _, exampleCollection) 1).
  - vm_compute; reflexivity.
  - reflexivity.
  - reflexivity.
  - intros [|j] Hj; [|lia].
    split; [vm_compute; reflexivity | vm_compute; discriminate].
  - vm_compute; reflexivity.
  - lia.
Defined.

(** * Further properties *)

(** ** The sentinel encoding *)

Section Sentinels.

Lemma Prim2SF_zero : Prim2SF 0 = S754_zero false.
Proof. reflexivity. Qed.

Lemma Prim2SF_neg_max :
  Prim2SF (- math.MaxFloat64) = S754_finite true 9007199254740991 971.
Proof. reflexivity. Qed.

Lemma Prim2SF_hundred : Prim2SF 100 = S754_finite false 7036874417766400 (-46).
Proof. reflexivity. Qed.

Lemma IsTrace_ltb (m : Measure) :
  IsTrace m = (amount m <? - math.MaxFloat64)%float.
Proof. reflexivity. Qed.

Lemma SFeqb_finite_refl (s : bool) (mm : positive) (e : Z) :
  SFeqb (S754_finite s mm e) (S754_finite s mm e) = true.
Proof.
  unfold SFeqb, SFcompare.
  assert (He : IntDef.Z.compare e e = Eq) by apply Z.compare_refl.
  assert (Hm : PosDef.Pos.compare_cont Eq mm mm = Eq)
    by apply Pos.compare_cont_refl.
  destruct s; rewrite He, Hm; reflexivity.
Qed.

(** No two of the three sentinel tests hold of the same measure. *)
Lemma sentinels_exclusive (m : Measure) :
  IsEmpty m && IsZero m = false
  ∧ IsEmpty m && IsTrace m = false
  ∧ IsZero m && IsTrace m = false.
Proof.
  rewrite IsTrace_ltb. unfold IsEmpty, IsZero, math.IsNaN, measureEmptySentinel.
  rewrite !FloatAxioms.eqb_spec, FloatAxioms.ltb_spec, Prim2SF_zero, Prim2SF_neg_max.
  destruct (Prim2SF (amount m)) as [s|s| |s mm e].
  - destruct s; repeat split.
  - destruct s; repeat split.
  - repeat split.
  - rewrite SFeqb_finite_refl. destruct s; repeat split.
Qed.

(** A float that is not NaN, not zero and not below zero is above zero. *)
Lemma positive_of_not_sentinel (v : float) :
  math.IsNaN v = false → (v =? 0)%float = false → (v <? 0)%float = false →
  (0 <? v)%float = true ∧ (0 <=? v)%float = true.
Proof.
  unfold math.IsNaN.
  rewrite !FloatAxioms.eqb_spec, !FloatAxioms.ltb_spec, FloatAxioms.leb_spec, Prim2SF_zero.
  destruct (Prim2SF v) as [s|s| |s mm e]; try destruct s;
    unfold SFeqb, SFltb, SFleb, SFcompare; intros H1 H2 H3;
    first [ discriminate H1 | discriminate H2 | discriminate H3
          | split; reflexivity ].
Qed.

(** Zero and the floats below zero are at most 100. *)
Lemma leb_hundred_of_nonpositive (v : float) :
  (v =? 0)%float = true ∨ (v <? 0)%float = true → (v <=? 100)%float = true.
Proof.
  rewrite FloatAxioms.eqb_spec, FloatAxioms.ltb_spec, FloatAxioms.leb_spec,
    Prim2SF_zero, Prim2SF_hundred.
  destruct (Prim2SF v) as [s|s| |s mm e]; try destruct s;
    unfold SFeqb, SFltb, SFleb, SFcompare; intros [H | H];
    first [ discriminate H | reflexivity ].
Qed.

End Sentinels.

(** X1. Each sentinel test picks out exactly its own state: a measure is
    empty, zero or a trace for the predicates exactly when [stateOf],
    which tests them in the order of [Amount], says so. *)
Theorem predicates_agree_with_states (m : Measure) :
  (IsEmpty m = true ↔ stateOf m = Empty)
  ∧ (IsZero m = true ↔ stateOf m = Zero)
  ∧ (IsTrace m = true ↔ stateOf m = Trace).
Proof.
  destruct (sentinels_exclusive m) as (Hez & Het & Hzt). unfold stateOf.
  destruct (IsEmpty m), (IsZero m), (IsTrace m);
    try discriminate Hez; try discriminate Het; try discriminate Hzt;
    repeat split; intros H; first [ reflexivity | discriminate H ].
Qed.

(** X2. The flags [Amount] returns are the predicates: its second result
    is [IsTrace], its third is [IsEmpty], and its first is the amount in
    the Numeric state and 0 in the three others, so that no sentinel is
    ever returned as a value. *)
Theorem Amount_flags (m : Measure) :
  Amount m =
    (match stateOf m with Numeric v => v | _ => 0%float end,
     IsTrace m, IsEmpty m)
  ∧ math.IsNaN (Amount m).1.1 = false
  ∧ math.IsInf (Amount m).1.1 (-1) = false.
Proof.
  destruct (sentinels_exclusive m) as (Hez & Het & Hzt).
  unfold Amount, stateOf.
  destruct (IsEmpty m) eqn:He, (IsZero m) eqn:Hz, (IsTrace m) eqn:Ht;
    try discriminate Hez; try discriminate Het; try discriminate Hzt;
    repeat split; first [ exact Hz | exact Ht ].
Qed.

(** X3. [NewMeasure] never builds an empty measure, and a measure it
    builds in the Numeric state has an amount above zero. *)
Theorem NewMeasure_never_empty (v : float) :
  IsEmpty (NewMeasure v) = false
  ∧ (∀ x : float, stateOf (NewMeasure v) = Numeric x →
       x = v ∧ (0 <? x)%float = true).
Proof.
  unfold NewMeasure, measureSentinelize.
  destruct (v =? 0)%float eqn:Hz; [split; [reflexivity | discriminate]|].
  destruct (v <? 0)%float eqn:Hlt; [split; [reflexivity | discriminate]|].
  split; [exact Hz|].
  intros x. unfold stateOf, IsEmpty, IsZero, measureEmptySentinel.
  cbv beta iota delta [amount]. rewrite Hz.
  destruct (math.IsNaN v) eqn:Hnan; [discriminate|].
  destruct (IsTrace {| amount := v |}); [discriminate|].
  intros [= <-]. split; [reflexivity|].
  by apply positive_of_not_sentinel.
Qed.

(** X4. For an input other than NaN, the measure [NewMeasure] builds is a
    valid percentage exactly when the input is at most 100: zero and
    negative inputs are always valid. *)
Theorem IsValidPercent_NewMeasure (v : float) :
  math.IsNaN v = false →
  IsValidPercent (NewMeasure v) = (v <=? 100)%float.
Proof.
  intros Hnan. unfold NewMeasure, measureSentinelize.
  destruct (v =? 0)%float eqn:Hz.
  { rewrite leb_hundred_of_nonpositive by (left; exact Hz). reflexivity. }
  destruct (v <? 0)%float eqn:Hlt.
  { rewrite leb_hundred_of_nonpositive by (right; exact Hlt). reflexivity. }
  unfold IsValidPercent, IsZero, IsEmpty, IsTrace, measureEmptySentinel.
  cbv beta iota delta [amount].
  rewrite Hnan, Hz, (IsInf_neg_false v Hlt).
  destruct (positive_of_not_sentinel v Hnan Hz Hlt) as [_ ->]. reflexivity.
Qed.

Lemma IsValidPercent_NewMeasure_witness :
  math.IsNaN 250 = false
  ∧ IsValidPercent (NewMeasure 250) = false
  ∧ IsValidPercent (NewMeasure (-3)) = true.
Proof.
  split; [reflexivity|]. split.
  - rewrite (IsValidPercent_NewMeasure 250); reflexivity.
  - rewrite (IsValidPercent_NewMeasure (-3)); reflexivity.
Defined.

(** X5. [Value] hands the database driver no sentinel: the float it
    returns, when it returns one, is not NaN, not [-Inf] and not zero;
    and it returns [nil] exactly for the empty and the trace measures. *)
Theorem Value_no_sentinel (m : Measure) :
  (∀ f : float, (Value m).1 = ValueFloat f →
     f = amount m ∧ math.IsNaN f = false ∧ math.IsInf f (-1) = false
     ∧ (f =? 0)%float = false)
  ∧ ((Value m).1 = ValueNil ↔ IsEmpty m = true ∨ IsTrace m = true)
  ∧ (Value m).2 = None.
Proof.
  unfold Value, IsEmpty, IsZero, IsTrace, measureEmptySentinel.
  destruct (math.IsInf (amount m) (-1)) eqn:Ht,
    (amount m =? 0)%float eqn:He,
    (math.IsNaN (amount m)) eqn:Hz; cbn [orb fst snd].
  all: split; [intros f Hf; try discriminate Hf | split; [|reflexivity]].
  all: try (injection Hf as <-; repeat split; assumption).
  all: split; [intros H; first [ discriminate H | auto ]
              | intros [H | H]; first [ discriminate H | reflexivity ]].
Qed.

(** ** Decoding measurement text and JSON *)

Section Decoding.
Context {strconv : Strconv} {json : EncodingJSON}.

(** [FromString] returns an error only from the number parser, and then
    leaves its receiver as it was. *)
Lemma FromString_error (m : Measure) (str : string) (u : Update) :
  FromString m str = Some u → err u ≠ None →
  receiver u = m ∧ ∃ s : string, parsed u = [s] ∧ ParseFloat s = None.
Proof.
  unfold FromString.
  destruct (IsEmptyMeasurement str); [intros [= <-] H; by destruct H|].
  destruct (IsErrorMeasurement str) as [[|]|]; cbn [mbind option_bind];
    [intros [= <-] H; by destruct H | | discriminate].
  destruct (IsTraceMeasurement str); [intros [= <-] H; by destruct H|].
  destruct (ParseFloat _) eqn:Hparse; intros [= <-] H; [by destruct H|].
  split; [reflexivity | eauto].
Qed.

Lemma FromString_returns (m : Measure) (str : string) :
  is_Some (FromString m str).
Proof.
  unfold FromString.
  destruct (IsEmptyMeasurement str) eqn:Hempty; [eauto|].
  destruct (IsErrorMeasurement str) as [isError|] eqn:Herr.
  - cbn [mbind option_bind]. destruct isError; [eauto|].
    destruct (IsTraceMeasurement str); [eauto|].
    destruct (ParseFloat _); eauto.
  - apply IsErrorMeasurement_panics in Herr. subst str. discriminate Hempty.
Qed.

(** X6. [UnmarshalJSON] changes its receiver only when it succeeds: when
    it returns an error, the measure is as it was before the call. *)
Theorem UnmarshalJSON_error_keeps_receiver (m : Measure) (b : bytes)
    (u : Update) :
  UnmarshalJSON m b = Some u → err u ≠ None → receiver u = m.
Proof.
  unfold UnmarshalJSON.
  destruct (String.eqb b "null"); [intros [= <-] H; by destruct H|].
  destruct (jsonUnmarshalString b) as [str|].
  - intros Hfrom Herr. by destruct (FromString_error _ _ _ Hfrom Herr).
  - destruct (jsonUnmarshalFloat64 b); intros [= <-] H;
      [by destruct H | reflexivity].
Qed.

(** X7. [UnmarshalCSV] is [FromString]: its assignment of the empty
    sentinel on an empty field changes nothing, since [FromString] makes
    the same assignment. *)
Theorem UnmarshalCSV_FromString (m : Measure) (value : string) :
  UnmarshalCSV m value = FromString m value.
Proof.
  unfold UnmarshalCSV.
  destruct (String.eqb_spec value "") as [-> | _]; reflexivity.
Qed.

Lemma HasPrefix_comma_ContainsAny (str : string) :
  HasPrefix str "," = true → ContainsAny str ",`/()" = true.
Proof.
  destruct str as [|c str]; [discriminate|].
  unfold HasPrefix. cbn [String.prefix].
  destruct (ascii_dec "," c) as [<- | _]; [reflexivity | discriminate].
Qed.

Lemma IsErrorMeasurement_false_ContainsAny (str : string) :
  IsErrorMeasurement str = Some false → ContainsAny str ",`/()" = false.
Proof.
  unfold IsErrorMeasurement.
  destruct (1 <? Count _ _)%nat; [discriminate|].
  by destruct (ContainsAny _ _).
Qed.

(** X8. What [FromString] hands to the number parser is its input less
    one leading [>] and one trailing [%]: the input then has no leading
    comma, so the stripping of a leading comma never applies. *)
Theorem FromString_parsed_text (m : Measure) (str s : string) (u : Update) :
  FromString m str = Some u → parsed u = [s] →
  s = TrimSuffix (TrimPrefix str ">") "%"
  ∧ HasPrefix str "," = false
  ∧ IsEmptyMeasurement str = false
  ∧ IsErrorMeasurement str = Some false
  ∧ IsTraceMeasurement str = false.
Proof.
  unfold FromString.
  destruct (IsEmptyMeasurement str); [intros [= <-]; discriminate|].
  destruct (IsErrorMeasurement str) as [[|]|] eqn:Herr;
    cbn [mbind option_bind]; [intros [= <-]; discriminate | | discriminate].
  destruct (IsTraceMeasurement str); [intros [= <-]; discriminate|].
  assert (Hcomma : HasPrefix str "," = false).
  { destruct (HasPrefix str ",") eqn:Hp; [|reflexivity].
    apply HasPrefix_comma_ContainsAny in Hp.
    apply IsErrorMeasurement_false_ContainsAny in Herr. congruence. }
  assert (Htrim : TrimPrefix str "," = str)
    by (unfold TrimPrefix; by rewrite Hcomma).
  rewrite Htrim.
  destruct (ParseFloat _); intros [= <-] [= <-];
    repeat split; first [ exact Hcomma | reflexivity ].
Qed.

(** X9. [UnmarshalJSON] returns on every document; a JSON string goes
    through [FromString], as its decoded text, and a JSON number through
    [measureSentinelize], as [NewMeasure] does. *)
Theorem UnmarshalJSON_routes (m : Measure) (b : bytes) :
  is_Some (UnmarshalJSON m b)
  ∧ (∀ lit : string, jsonScan b = JString lit →
       UnmarshalJSON m b = FromString m (jsonUnquote lit))
  ∧ (∀ (lit : string) (val : float),
       jsonScan b = JNumber lit → ParseFloat lit = Some val →
       UnmarshalJSON m b = Some (mkUpdate (NewMeasure val) None [])).
Proof.
  split; [|split].
  - unfold UnmarshalJSON. destruct (String.eqb b "null"); [eauto|].
    destruct (jsonUnmarshalString b); [apply FromString_returns|].
    destruct (jsonUnmarshalFloat64 b); eauto.
  - intros lit Hscan. unfold UnmarshalJSON, jsonUnmarshalString.
    destruct (String.eqb_spec b "null") as [-> | _]; [discriminate Hscan|].
    by rewrite Hscan.
  - intros lit val Hscan Hparse.
    unfold UnmarshalJSON, jsonUnmarshalString, jsonUnmarshalFloat64.
    destruct (String.eqb_spec b "null") as [-> | _]; [discriminate Hscan|].
    by rewrite Hscan, Hparse.
Qed.

End Decoding.

Lemma UnmarshalJSON_error_keeps_receiver_witness :
  ∃ u : Update,
    UnmarshalJSON (strconv := exampleStrconv) (json := exampleJSON)
      (NewMeasure 50) "12abc" = Some u
    ∧ err u = Some ErrUnmarshalMeasure
    ∧ receiver u = NewMeasure 50.
Proof.
  eexists. split; [reflexivity|]. split; [reflexivity|].
  apply (UnmarshalJSON_error_keeps_receiver (strconv := exampleStrconv)
           (json := exampleJSON) (NewMeasure 50) "12abc");
    [reflexivity | discriminate].
Defined.

Lemma FromString_parsed_text_witness :
  ∃ u : Update,
    FromString (strconv := exampleStrconv) NewEmptyMeasure ">5%" = Some u
    ∧ parsed u = ["5"]
    ∧ stateOf (receiver u) = Numeric 5.
Proof.
  eexists. split; [reflexivity|]. split; [|reflexivity].
  destruct (FromString_parsed_text (strconv := exampleStrconv)
              NewEmptyMeasure ">5%" "5"
              (mkUpdate (NewMeasure 5) None ["5"])) as (_ & _);
    reflexivity.
Defined.

(** ** Cleaning composes *)

Lemma CleanBrands_eq_filter (bs : list Brand) :
  CleanBrands bs = List.filter (λ b, negb (IsBrandErroneous b)) bs.
Proof. unfold CleanBrands. apply DeleteFunc_filter. Qed.

Lemma filter_idempotent {A : Type} (f : A → bool) (l : list A) :
  List.filter f (List.filter f l) = List.filter f l.
Proof.
  induction l as [|x l IH]; [reflexivity|]. cbn.
  destruct (f x) eqn:Hx; [|exact IH]. cbn. by rewrite Hx, IH.
Qed.

(** X10. Cleaning is idempotent, and cleaning a concatenation is
    concatenating the cleaned parts: pages may be cleaned one at a time
    or all at once. *)
Theorem CleanBrands_composes (bs bs' : list Brand) :
  CleanBrands (CleanBrands bs) = CleanBrands bs
  ∧ CleanBrands (bs ++ bs') = CleanBrands bs ++ CleanBrands bs'
  ∧ (length (CleanBrands bs) ≤ length bs)%nat.
Proof.
  rewrite !CleanBrands_eq_filter. split; [|split].
  - apply filter_idempotent.
  - apply List.filter_app.
  - apply List.filter_length_le.
Qed.

(** X11. A list without erroneous brands is returned as it is, and only
    such a list is. *)
Theorem CleanBrands_fixpoint (bs : list Brand) :
  CleanBrands bs = bs ↔ Forall (λ b, IsBrandErroneous b = false) bs.
Proof.
  rewrite CleanBrands_eq_filter. induction bs as [|b bs IH]; cbn.
  - split; [constructor | reflexivity].
  - rewrite Forall_cons. destruct (IsBrandErroneous b) eqn:Hb; cbn.
    + split; [|intros [Habs _]; discriminate Habs].
      intros Heq.
      pose proof (List.filter_length_le
                    (λ b, negb (IsBrandErroneous b)) bs) as Hle.
      rewrite Heq in Hle. cbn in Hle. lia.
    + rewrite <- IH. split.
      * intros [= Heq]. by split.
      * intros [_ Heq]. by rewrite Heq.
Qed.

(** ** Escaping text for CSV and for SQL *)

Lemma prefix_nil (s : string) : String.prefix "" s = true.
Proof. by destruct s. Qed.

Lemma CSVString_cons (c : ascii) (s : string) :
  CSVString (String c s)
  = if Ascii.eqb c quoteChar then String "'" (CSVString s)
    else String c (CSVString s).
Proof.
  unfold CSVString, ReplaceAll, doubleQuote. cbn [replaceFrom String.prefix].
  destruct (ascii_dec quoteChar c) as [<- | Hne].
  - by rewrite prefix_nil.
  - destruct (Ascii.eqb_spec c quoteChar) as [-> | _]; [by destruct Hne | done].
Qed.

Lemma dbString_cons (c : ascii) (s : string) :
  dbString (String c s)
  = if Ascii.eqb c "'" then String "'" (String "'" (dbString s))
    else String c (dbString s).
Proof.
  unfold dbString, ReplaceAll. cbn [replaceFrom String.prefix].
  destruct (ascii_dec "'" c) as [<- | Hne].
  - by rewrite prefix_nil.
  - destruct (Ascii.eqb_spec c "'") as [-> | _]; [by destruct Hne | done].
Qed.

(** X12. [CSVString] leaves no double quote in its result, keeps the
    length, and returns a string without double quotes as it is. *)
Theorem CSVString_no_quote (str : string) :
  ContainsAny (CSVString str) doubleQuote = false
  ∧ String.length (CSVString str) = String.length str
  ∧ (ContainsAny str doubleQuote = false → CSVString str = str).
Proof.
  induction str as [|c str (IHq & IHl & IHid)]; [by repeat split|].
  rewrite CSVString_cons. unfold doubleQuote in *.
  cbn [ContainsAny IndexByte]. rewrite orb_false_r, (Ascii.eqb_sym quoteChar c).
  destruct (Ascii.eqb c quoteChar) eqn:Hc.
  - cbn [ContainsAny IndexByte String.length orb]. rewrite orb_false_r.
    replace (Ascii.eqb quoteChar "'") with false by reflexivity.
    repeat split; [exact IHq | by rewrite IHl | discriminate].
  - cbn [ContainsAny IndexByte String.length orb].
    rewrite orb_false_r, (Ascii.eqb_sym quoteChar c), Hc.
    repeat split; [exact IHq | by rewrite IHl |].
    intros Hno. by rewrite IHid.
Qed.

(** X13. In the result of [db.String] every single quote is one of a
    pair, and replacing the pairs by single quotes gives the argument
    back. *)
Theorem dbString_quotes_paired (str : string) :
  quotesPaired (dbString str) = true
  ∧ ReplaceAll (dbString str) "''" "'" = str.
Proof.
  induction str as [|c str [IHp IHr]]; [by split|].
  rewrite dbString_cons. destruct (Ascii.eqb_spec c "'") as [-> | Hne].
  - split; [exact IHp|].
    unfold ReplaceAll in *. cbn [replaceFrom String.prefix].
    destruct (ascii_dec "'" "'") as [_ | Habs]; [|by destruct Habs].
    rewrite prefix_nil. cbn [String.length Nat.sub String.append replaceFrom].
    by rewrite IHr.
  - split.
    + cbn [quotesPaired].
      by destruct (Ascii.eqb_spec c "'") as [-> | _]; [destruct Hne|].
    + unfold ReplaceAll in *. cbn [replaceFrom String.prefix].
      destruct (ascii_dec "'" c) as [<- | _]; [by destruct Hne|].
      by rewrite IHr.
Qed.

(** ** Creating, writing and checking a cache file *)

Section CacheFiles.
Context {json : EncodingJSON} {filepath : Filepath} {bytesLib : Bytes}.

Lemma string_app_nil_r (s : string) : s +:+ "" = s.
Proof.
  induction s as [|c s IH]; [reflexivity|].
  change (String c (s +:+ "") = String c s). by rewrite IH.
Qed.

Lemma string_app_assoc (s1 s2 s3 : string) :
  (s1 +:+ s2) +:+ s3 = s1 +:+ (s2 +:+ s3).
Proof.
  induction s1 as [|c s1 IH]; [reflexivity|].
  change (String c ((s1 +:+ s2) +:+ s3) = String c (s1 +:+ (s2 +:+ s3))).
  by rewrite IH.
Qed.

Lemma files_fileWrite_eq (w : World) (name : string) (b : bytes) :
  files (fileWrite w name b) !! name
  = (λ f, mkFile (fileData f +:+ b) (now w) (readable f)) <$> files w !! name.
Proof. unfold fileWrite. cbn [files setFiles]. apply lookup_alter_eq. Qed.

Lemma files_fileWrite_ne (w : World) (name p : string) (b : bytes) :
  p ≠ name → files (fileWrite w name b) !! p = files w !! p.
Proof.
  intros Hne. unfold fileWrite. cbn [files setFiles].
  by apply lookup_alter_ne.
Qed.


(** X15. With a cache file that is fresh, readable and decodes,
    [FetchBrands] returns its brands without issuing a request and
    without changing anything, before its page loop takes any step. *)
Theorem FetchBrands_cache_hit (w : World) (appToken : string)
    (maxCacheAge : Z) (f : File) (bs : list Brand) (fuel : nat) :
  files w !! GetDankCachePathname w BRAND_JSON_FILENAME = Some f →
  maxCacheAge = 0 ∨ now w - ModTime f ≤ maxCacheAge →
  readable f = true →
  UnmarshalBrands (fileData f) = Some bs →
  FetchBrands fuel w appToken maxCacheAge = Some (bs, None, w).
Proof.
  intros Hfile Hfresh Hread Hdecode.
  unfold FetchBrands, cachedBrands, CheckCacheFile.
  unfold GetDankCachePathname, CacheDir in Hfile. rewrite Hfile, Hread.
  replace (negb (maxCacheAge =? 0) && (ModTime f + maxCacheAge <? now w))
    with false.
  - by rewrite Hdecode.
  - destruct (Z.eqb_spec maxCacheAge 0), (Z.ltb_spec (ModTime f + maxCacheAge) (now w));
      try reflexivity; lia.
Qed.

(** X16. When there is no usable cache and the cache file cannot be
    created, [FetchBrands] returns an error and a nil slice, issues no
    request and leaves every file, a stale cache file included, as it
    was. *)
Theorem FetchBrands_cannot_create (w : World) (appToken : string)
    (maxCacheAge : Z) (fuel : nat) :
  cachedBrands w maxCacheAge = None →
  mkdirOK w = false ∨ createOK w = false →
  ∃ e : error,
    FetchBrands fuel w appToken maxCacheAge
    = Some ([], Some (ErrCreateJSONCache e), w)
    ∧ (e = ErrMkdirCache ∨ e = ErrCreateCache).
Proof.
  intros Hmiss Hfail. unfold FetchBrands, MakeCacheFile. rewrite Hmiss.
  destruct (mkdirOK w); [|eauto].
  destruct Hfail as [Habs | ->]; [discriminate Habs | eauto].
Qed.

End CacheFiles.


Lemma FetchBrands_cache_hit_witness :
  FetchBrands (json := exampleJSON) (filepath := exampleFilepath)
    (bytesLib := exampleBytes) 0 (cachedWorld (30 * minute) true) "" hour
  = Some ([], None, cachedWorld (30 * minute) true).
Proof.
  apply (FetchBrands_cache_hit (json := exampleJSON)
           (filepath := exampleFilepath) (bytesLib := exampleBytes)
           (cachedWorld (30 * minute) true) "" hour
           (mkFile "[]" (100 * hour - 30 * minute) true) [] 0).
  - vm_compute; reflexivity.
  - right. vm_compute. discriminate.
  - reflexivity.
  - reflexivity.
Defined.

Lemma FetchBrands_cannot_create_witness :
  ∃ e : error,
    FetchBrands (json := exampleJSON) (filepath := exampleFilepath)
      (bytesLib := exampleBytes) 5 readOnlyWorld "" hour
    = Some ([], Some (ErrCreateJSONCache e), readOnlyWorld)
    ∧ (e = ErrMkdirCache ∨ e = ErrCreateCache).
Proof.
  apply (FetchBrands_cannot_create (json := exampleJSON)
           (filepath := exampleFilepath) (bytesLib := exampleBytes)
           readOnlyWorld "" hour 5).
  - vm_compute; reflexivity.
  - right. reflexivity.
Defined.

(** ** Runs of the page loop *)

Section Runs.
Context {json : EncodingJSON} {filepath : Filepath} {bytesLib : Bytes}.

Lemma servesPage_remote (w w' : World) (appToken : string) (off : Z)
    (body : bytes) (batch : list Brand) :
  remote w' = remote w →
  servesPage w appToken off body batch → servesPage w' appToken off body batch.
Proof. unfold servesPage. by intros ->. Qed.

(** An iteration on a page that is served. *)
Lemma fetchPage_served (appToken cacheFile : string) (st : LoopState)
    (body : bytes) (batch : list Brand) :
  servesPage (world st) appToken (offset st) body batch →
  fetchPage appToken cacheFile st
  = if Z.of_nat (length batch) <? batchLimit
    then Break (mkLoopState (brands st ++ batch) (offset st) false
                  (pageWorld appToken cacheFile st body))
    else Next (mkLoopState (brands st ++ batch) (offset st + batchLimit) false
                 (pageWorld appToken cacheFile st body)).
Proof.
  intros (status & Hresp & Hdecode).
  unfold fetchPage, pageWorld, stripBrackets. cbv zeta.
  rewrite remote_logRequest, Hresp, Hdecode. reflexivity.
Qed.

(** Every iteration either returns an error, having only recorded its
    request, or was served a page. *)
Lemma fetchPage_cases (appToken cacheFile : string) (st : LoopState) :
  (∃ e : error,
     fetchPage appToken cacheFile st
     = Return e (logRequest (world st) (pageRequest appToken (offset st))))
  ∨ (∃ (body : bytes) (batch : list Brand),
       servesPage (world st) appToken (offset st) body batch).
Proof.
  destruct (pageOutcome (world st) appToken (offset st)) as [e|batch] eqn:Hout.
  - left. exists e. by apply fetchPage_error.
  - right. revert Hout. unfold pageOutcome, servesPage.
    destruct (remote (world st) _) as [|code status body bodyErr]; [discriminate|].
    destruct bodyErr; [by destruct (negb _)|].
    destruct (Z.eqb_spec code StatusOK) as [-> | _]; [|discriminate].
    cbn [negb].
    destruct (UnmarshalBrands body) as [bs|] eqn:Hdecode; [|discriminate].
    intros _. eauto.
Qed.

Lemma ranPages_pageWorld (appToken cacheFile : string) (st : LoopState)
    (body : bytes) :
  ranPages appToken cacheFile (offset st) 1 (world st)
    (pageWorld appToken cacheFile st body).
Proof.
  unfold ranPages, pageWorld. cbv zeta.
  destruct (firstLoop st); repeat split; try reflexivity.
  all: try (intros p Hp; by rewrite ?files_fileWrite_ne).
  all: try (intros Hsome; rewrite ?files_fileWrite_eq;
            cbn [files logRequest]; rewrite ?files_fileWrite_eq;
            cbn [files logRequest];
            destruct Hsome as [f ->]; cbn; eauto).
  all: cbn [requests fileWrite setFiles logRequest seq map];
       by rewrite Z.mul_0_l, Z.add_0_r.
Qed.

Lemma ranPages_logRequest (appToken cacheFile : string) (st : LoopState) :
  ranPages appToken cacheFile (offset st) 1 (world st)
    (logRequest (world st) (pageRequest appToken (offset st))).
Proof.
  unfold ranPages. repeat split; try reflexivity; try done.
  cbn [requests logRequest seq map]. by rewrite Z.mul_0_l, Z.add_0_r.
Qed.

Lemma ranPages_trans (appToken cacheFile : string) (off : Z) (m : nat)
    (w w1 w2 : World) :
  ranPages appToken cacheFile off 1 w w1 →
  ranPages appToken cacheFile (off + batchLimit) m w1 w2 →
  ranPages appToken cacheFile off (S m) w w2.
Proof.
  intros (Hr1 & Hn1 & Hd1 & Hm1 & Hc1 & Hf1 & Hs1 & Hq1)
         (Hr2 & Hn2 & Hd2 & Hm2 & Hc2 & Hf2 & Hs2 & Hq2).
  unfold ranPages. repeat split; try congruence.
  - intros p Hp. by rewrite Hf2, Hf1.
  - auto.
  - rewrite Hq2, Hq1, <- app_assoc. f_equal.
    cbn [seq map app]. rewrite Z.mul_0_l, Z.add_0_r. f_equal.
    rewrite <- seq_shift, map_map. apply map_ext. intros j. f_equal. lia.
Qed.

(** Whatever the endpoint answers, a run of the page loop that ends has
    issued at least one request, at consecutive offsets, and has touched
    nothing but the cache file. *)
Lemma fetchLoop_ranPages (appToken cacheFile : string) (fuel : nat) :
  ∀ (st : LoopState) (res : LoopState + error * World),
    fetchLoop fuel appToken cacheFile st = Some res →
    ∃ m : nat,
      ranPages appToken cacheFile (offset st) (S m) (world st) (endWorld res).
Proof.
  induction fuel as [|fuel IH]; intros st res; [discriminate|].
  cbn [fetchLoop].
  destruct (fetchPage_cases appToken cacheFile st)
    as [[e ->] | (body & batch & Hserved)].
  - intros [= <-]. exists 0%nat. apply ranPages_logRequest.
  - rewrite (fetchPage_served _ _ _ _ _ Hserved).
    destruct (Z.of_nat (length batch) <? batchLimit).
    + intros [= <-]. exists 0%nat. apply ranPages_pageWorld.
    + intros Hrun. destruct (IH _ _ Hrun) as [m Hm]. exists (S m).
      eapply ranPages_trans; [apply ranPages_pageWorld | exact Hm].
Qed.

End Runs.

(** ** What any run of [FetchBrands] does *)

Section AnyRun.
Context {json : EncodingJSON} {filepath : Filepath} {bytesLib : Bytes}.

(** The three ways in which [FetchBrands] returns: from the cache, on
    failing to create the cache file, and out of its page loop. *)
Lemma FetchBrands_returns (fuel : nat) (w : World) (appToken : string)
    (maxCacheAge : Z) (bs : list Brand) (e : option error) (w' : World) :
  FetchBrands fuel w appToken maxCacheAge = Some (bs, e, w') →
  let cacheFile := GetDankCachePathname w BRAND_JSON_FILENAME in
  (cachedBrands w maxCacheAge = Some bs ∧ e = None ∧ w' = w)
  ∨ (cachedBrands w maxCacheAge = None
     ∧ (mkdirOK w = false ∨ createOK w = false)
     ∧ bs = [] ∧ is_Some e ∧ w' = w)
  ∨ (cachedBrands w maxCacheAge = None
     ∧ mkdirOK w = true ∧ createOK w = true
     ∧ ∃ res : LoopState + error * World,
         fetchLoop fuel appToken cacheFile
           (mkLoopState [] 0 true
              (fileWrite (osCreate w cacheFile) cacheFile "["))
         = Some res
         ∧ match res with
           | inl st =>
               bs = brands st ∧ e = None
               ∧ w' = fileWrite (world st) cacheFile "]"
           | inr (err, w1) =>
               bs = [] ∧ e = Some err ∧ w' = osRemove w1 cacheFile
           end).
Proof.
  unfold FetchBrands, MakeCacheFile. cbv zeta.
  destruct (cachedBrands w maxCacheAge) as [cached|] eqn:Hcache.
  { intros [= <- <- <-]. by left. }
  destruct (mkdirOK w) eqn:Hmkdir; cbn [negb].
  2:{ intros [= <- <- <-]. right. left. repeat split; eauto. }
  destruct (createOK w) eqn:Hcreate; cbn [negb].
  2:{ intros [= <- <- <-]. right. left. repeat split; eauto. }
  intros Hrun. right. right. repeat split.
  change (Join [dankRoot w; DankDir; "cache"; BRAND_JSON_FILENAME])
    with (GetDankCachePathname w BRAND_JSON_FILENAME) in Hrun.
  destruct (fetchLoop _ _ _ _) as [[st | [err w1]]|]; [| |discriminate].
  - injection Hrun as <- <- <-. eexists. split; [reflexivity|]. by repeat split.
  - injection Hrun as <- <- <-. eexists. split; [reflexivity|]. by repeat split.
Qed.


(** X18. The requests [FetchBrands] issues are page requests for 5000
    records ordered by registration number, at the offsets 0, 5000,
    10000, ... in this order, without a gap and without a repeat. *)
Theorem FetchBrands_requests (fuel : nat) (w : World) (appToken : string)
    (maxCacheAge : Z) (bs : list Brand) (e : option error) (w' : World) :
  FetchBrands fuel w appToken maxCacheAge = Some (bs, e, w') →
  ∃ m : nat,
    requests w'
    = requests w
      ++ map (λ j : nat,
                mkRequest "registration_number" (Z.of_nat j * 5000) 5000
                  (if String.eqb appToken "" then None else Some appToken))
           (seq 0 m).
Proof.
  intros Hrun. apply FetchBrands_returns in Hrun. cbv zeta in Hrun.
  destruct Hrun as [(_ & _ & ->) | [(_ & _ & _ & _ & ->)
                   | (_ & _ & _ & res & Hloop & Hres)]].
  - exists 0%nat. cbn. by rewrite app_nil_r.
  - exists 0%nat. cbn. by rewrite app_nil_r.
  - destruct (fetchLoop_ranPages _ _ _ _ _ Hloop)
      as (m & _ & _ & _ & _ & _ & _ & _ & Hq).
    exists (S m).
    assert (Hend : requests w' = requests (endWorld res)).
    { destruct res as [st | [err w1]]; cbn [endWorld];
        by destruct Hres as (_ & _ & ->). }
    rewrite Hend, Hq. reflexivity.
Qed.

(** X19. A run of [FetchBrands] that went to the endpoint and created
    the cache file leaves that file in place exactly when it returns no
    error; with an error it returns a nil slice. *)
Theorem FetchBrands_commit_iff_success (fuel : nat) (w : World)
    (appToken : string) (maxCacheAge : Z) (bs : list Brand)
    (e : option error) (w' : World) :
  cachedBrands w maxCacheAge = None →
  mkdirOK w = true → createOK w = true →
  FetchBrands fuel w appToken maxCacheAge = Some (bs, e, w') →
  (e = None ↔ is_Some (files w' !! GetDankCachePathname w BRAND_JSON_FILENAME))
  ∧ (e ≠ None → bs = []).
Proof.
  intros Hmiss Hmkdir Hcreate Hrun.
  apply FetchBrands_returns in Hrun. cbv zeta in Hrun.
  destruct Hrun as [(Hhit & _) | [(_ & [Habs | Habs] & _)
                   | (_ & _ & _ & res & Hloop & Hres)]]; try congruence.
  destruct (fetchLoop_ranPages _ _ _ _ _ Hloop)
    as (m & _ & _ & _ & _ & _ & _ & Hs & _).
  cbn [world] in Hs.
  destruct res as [st | [err w1]]; cbn [endWorld] in *.
  - destruct Hres as (_ & -> & ->). split; [|done]. split; [|done].
    intros _. rewrite files_fileWrite_eq. apply fmap_is_Some. apply Hs.
    rewrite files_fileWrite_eq. apply fmap_is_Some.
    cbn [files osCreate setFiles]. rewrite lookup_insert_eq. eauto.
  - destruct Hres as (-> & -> & ->). split; [|done].
    cbn [files osRemove setFiles]. rewrite lookup_delete_eq.
    split; [discriminate | by intros [? ?]].
Qed.

End AnyRun.


Lemma FetchBrands_requests_witness :
  ∃ w' : World,
    FetchBrands (json := exampleJSON) (filepath := exampleFilepath)
      (bytesLib := exampleBytes) 1 (exampleWorld downRemote) "tok" 0
    = Some ([], Some ErrTransport, w')
    ∧ ∃ m : nat,
        requests w'
        = map (λ j : nat,
                 mkRequest "registration_number" (Z.of_nat j * 5000) 5000
                   (Some "tok"))
            (seq 0 m).
Proof.
  eexists. split; [reflexivity|].
  apply (FetchBrands_requests (json := exampleJSON)
           (filepath := exampleFilepath) (bytesLib := exampleBytes)
           1 (exampleWorld downRemote) "tok" 0 [] (Some ErrTransport) _
           eq_refl).
Defined.

(** An empty collection: one request, no error, and the cache file is
    kept. *)
Lemma FetchBrands_commit_iff_success_witness :
  ∃ w' : World,
    FetchBrands (json := exampleJSON) (filepath := exampleFilepath)
      (bytesLib := exampleBytes) 1 (exampleWorld emptyRemote) "" 0
    = Some ([], None, w')
    ∧ is_Some (files w' !! "/srv/.dank/cache/us_ct_brands.json").
Proof.
  eexists. split; [reflexivity|].
  destruct (FetchBrands_commit_iff_success (json := exampleJSON)
              (filepath := exampleFilepath) (bytesLib := exampleBytes)
              1 (exampleWorld emptyRemote) "" 0 [] None _
              eq_refl eq_refl eq_refl eq_refl) as [[Hkept _] _].
  by apply Hkept.
Defined.

(** ** What a successful run writes to the cache file *)

Section CacheText.
Context {json : EncodingJSON} {filepath : Filepath} {bytesLib : Bytes}.

Lemma pageWorld_cache_file (appToken cacheFile : string) (st : LoopState)
    (body c : bytes) (r : bool) :
  files (world st) !! cacheFile = Some (mkFile c (now (world st)) r) →
  files (pageWorld appToken cacheFile st body) !! cacheFile
  = Some (mkFile
            (c +:+ (if firstLoop st then "" else ",") +:+ stripBrackets body)
            (now (world st)) r).
Proof.
  intros Hfile. unfold pageWorld. cbv zeta.
  destruct (firstLoop st); rewrite !files_fileWrite_eq;
    cbn [files logRequest]; rewrite Hfile;
    cbn [fmap option_fmap option_map fileData readable now fileWrite
         setFiles logRequest];
    by rewrite ?string_app_assoc.
Qed.

Lemma pageWorld_same (appToken cacheFile : string) (st : LoopState)
    (body : bytes) :
  remote (pageWorld appToken cacheFile st body) = remote (world st)
  ∧ now (pageWorld appToken cacheFile st body) = now (world st)
  ∧ length (requests (pageWorld appToken cacheFile st body))
    = S (length (requests (world st))).
Proof.
  unfold pageWorld. cbv zeta.
  destruct (firstLoop st); repeat split;
    cbn [requests fileWrite setFiles logRequest];
    rewrite length_app; cbn [length]; lia.
Qed.

(** A run of full pages: what it appends to the brands and to the cache
    file. *)
Lemma fetchLoop_served_pages (appToken cacheFile : string)
    (pages : list (bytes * list Brand)) :
  ∀ (st : LoopState) (fuel : nat) (c : bytes) (r : bool),
    files (world st) !! cacheFile = Some (mkFile c (now (world st)) r) →
    (∀ (j : nat) (p : bytes * list Brand), pages !! j = Some p →
       servesPage (world st) appToken (offset st + Z.of_nat j * batchLimit)
         p.1 p.2
       ∧ batchLimit ≤ Z.of_nat (length p.2)) →
    ∃ st' : LoopState,
      fetchLoop (length pages + fuel) appToken cacheFile st
        = fetchLoop fuel appToken cacheFile st'
      ∧ brands st' = brands st ++ concat (map snd pages)
      ∧ offset st' = offset st + Z.of_nat (length pages) * batchLimit
      ∧ firstLoop st' = match pages with [] => firstLoop st | _ => false end
      ∧ remote (world st') = remote (world st)
      ∧ now (world st') = now (world st)
      ∧ files (world st') !! cacheFile
        = Some (mkFile (c +:+ cacheText (firstLoop st) (map fst pages))
                  (now (world st)) r)
      ∧ length (requests (world st'))
        = (length (requests (world st)) + length pages)%nat.
Proof.
  induction pages as [|p pages IH]; intros st fuel c r Hfile Hpages.
  - exists st. cbn [length map concat cacheText Nat.add].
    rewrite app_nil_r, string_app_nil_r. repeat split; try done; lia.
  - destruct (Hpages 0%nat p eq_refl) as [Hserved Hfull].
    rewrite Z.mul_0_l, Z.add_0_r in Hserved.
    pose proof (fetchPage_served _ cacheFile _ _ _ Hserved) as Hstep.
    replace (Z.of_nat (length p.2) <? batchLimit) with false in Hstep
      by (symmetry; apply Z.ltb_ge; exact Hfull).
    destruct (pageWorld_same appToken cacheFile st p.1) as (Hrem & Hnow & Hreq).
    set (st1 := mkLoopState (brands st ++ p.2) (offset st + batchLimit) false
                  (pageWorld appToken cacheFile st p.1)) in *.
    destruct (IH st1 fuel
                (c +:+ (if firstLoop st then "" else ",") +:+ stripBrackets p.1)
                r)
      as (st' & Hrun & Hbrands & Hoff & Hfirst & Hrem' & Hnow' & Hfile' & Hreq').
    { cbn [st1 world]. rewrite Hnow. by apply pageWorld_cache_file. }
    { intros j q Hq. destruct (Hpages (S j) q Hq) as [Hs Hf]. split; [|exact Hf].
      apply (servesPage_remote (world st)); [exact Hrem|].
      cbn [st1 offset].
      replace (offset st + batchLimit + Z.of_nat j * batchLimit)
        with (offset st + Z.of_nat (S j) * batchLimit) by lia.
      exact Hs. }
    exists st'. cbn [length Nat.add fetchLoop]. rewrite Hstep.
    repeat split.
    + exact Hrun.
    + rewrite Hbrands. cbn [st1 brands map concat]. by rewrite app_assoc.
    + rewrite Hoff. cbn [st1 offset]. lia.
    + rewrite Hfirst. by destruct pages.
    + rewrite Hrem'. exact Hrem.
    + rewrite Hnow'. exact Hnow.
    + rewrite Hfile'. cbn [st1 world firstLoop map cacheText].
      rewrite Hnow. by rewrite !string_app_assoc.
    + rewrite Hreq'. cbn [st1 world]. rewrite Hreq. lia.
Qed.

(** [FetchBrands] on a collection served as full pages followed by one
    short page, in terms of what the loop wrote last. *)
Lemma FetchBrands_served (w : World) (appToken : string) (maxCacheAge : Z)
    (pages : list (bytes * list Brand)) (lastBody : bytes)
    (lastBatch : list Brand) (fuel : nat) :
  cachedBrands w maxCacheAge = None →
  mkdirOK w = true → createOK w = true →
  (∀ (j : nat) (p : bytes * list Brand), pages !! j = Some p →
     servesPage w appToken (Z.of_nat j * batchLimit) p.1 p.2
     ∧ batchLimit ≤ Z.of_nat (length p.2)) →
  servesPage w appToken (Z.of_nat (length pages) * batchLimit)
    lastBody lastBatch →
  Z.of_nat (length lastBatch) < batchLimit →
  (length pages < fuel)%nat →
  ∃ w' : World,
    FetchBrands fuel w appToken maxCacheAge
    = Some (concat (map snd pages) ++ lastBatch, None, w')
    ∧ files w' !! GetDankCachePathname w BRAND_JSON_FILENAME
      = Some (mkFile
                ((("[" +:+ cacheText true (map fst pages))
                  +:+ (match pages with [] => "" | _ => "," end)
                  +:+ stripBrackets lastBody) +:+ "]")
                (now w) true)
    ∧ length (requests w') = (length (requests w) + length pages + 1)%nat.
Proof.
  intros Hmiss Hmkdir Hcreate Hpages Hlast Hshort Hfuel.
  rewrite (FetchBrands_network _ _ _ _ Hmiss Hmkdir Hcreate).
  set (cacheFile := GetDankCachePathname w BRAND_JSON_FILENAME).
  set (st0 := mkLoopState [] 0 true _).
  assert (Hremote0 : remote (world st0) = remote w) by reflexivity.
  assert (Hfile0 : files (world st0) !! cacheFile
                   = Some (mkFile "[" (now (world st0)) true)).
  { cbn [st0 world]. rewrite files_fileWrite_eq.
    cbn [files osCreate setFiles]. by rewrite lookup_insert_eq. }
  replace fuel with (length pages + S (fuel - length pages - 1))%nat by lia.
  destruct (fetchLoop_served_pages appToken cacheFile pages st0
              (S (fuel - length pages - 1)) "[" true Hfile0)
    as (st1 & -> & Hbrands & Hoff & Hfirst & Hrem & Hnow & Hfile & Hreq).
  { intros j p Hp. destruct (Hpages j p Hp) as [Hs Hf]. split; [|exact Hf].
    apply (servesPage_remote w); [exact Hremote0|].
    cbn [st0 offset]. by rewrite Z.add_0_l. }
  cbn [st0 offset] in Hoff. rewrite Z.add_0_l in Hoff.
  assert (Hlast1 : servesPage (world st1) appToken (offset st1)
                     lastBody lastBatch).
  { apply (servesPage_remote w); [by rewrite Hrem|]. by rewrite Hoff. }
  cbn [fetchLoop]. rewrite (fetchPage_served _ cacheFile _ _ _ Hlast1).
  replace (Z.of_nat (length lastBatch) <? batchLimit) with true
    by (symmetry; apply Z.ltb_lt; exact Hshort).
  eexists. split; [|split].
  - cbn [brands]. rewrite Hbrands. reflexivity.
  - cbn [deferred world]. rewrite files_fileWrite_eq.
    rewrite <- Hnow in Hfile.
    rewrite (pageWorld_cache_file _ _ _ _ _ _ Hfile), Hfirst.
    cbn [fmap option_fmap option_map fileData readable now fileWrite setFiles].
    destruct (pageWorld_same appToken cacheFile st1 lastBody) as (_ & -> & _).
    rewrite Hnow. cbn [st0 world firstLoop]. f_equal. f_equal.
    destruct pages; reflexivity.
  - cbn [deferred world requests fileWrite setFiles].
    destruct (pageWorld_same appToken cacheFile st1 lastBody) as (_ & _ & ->).
    rewrite Hreq. cbn [st0 world requests fileWrite osCreate setFiles]. lia.
Qed.

Lemma cacheText_snoc (bodies : list bytes) (body : bytes) (first : bool) :
  cacheText first (bodies ++ [body])
  = (cacheText first bodies
     +:+ (match bodies with [] => if first then "" else "," | _ => "," end))
    +:+ stripBrackets body.
Proof.
  revert first. induction bodies as [|b bodies IH]; intros first.
  - cbn [app cacheText]. by rewrite string_app_nil_r.
  - cbn [app cacheText]. rewrite IH, !string_app_assoc.
    by destruct bodies.
Qed.

End CacheText.

Section Pagination.
Context {json : EncodingJSON} {filepath : Filepath} {bytesLib : Bytes}.

(** X20. Against an endpoint that serves any number of full pages and
    then a page shorter than the limit, [FetchBrands] returns the batches
    put end to end, after one request per page, and keeps a cache file
    that holds an opening bracket, the page bodies stripped of their own
    brackets and separated by commas, and a closing bracket. *)
Theorem FetchBrands_pages (w : World) (appToken : string) (maxCacheAge : Z)
    (pages : list (bytes * list Brand)) (lastBody : bytes)
    (lastBatch : list Brand) (fuel : nat) :
  cachedBrands w maxCacheAge = None →
  mkdirOK w = true → createOK w = true →
  (∀ (j : nat) (p : bytes * list Brand), pages !! j = Some p →
     servesPage w appToken (Z.of_nat j * batchLimit) p.1 p.2
     ∧ batchLimit ≤ Z.of_nat (length p.2)) →
  servesPage w appToken (Z.of_nat (length pages) * batchLimit)
    lastBody lastBatch →
  Z.of_nat (length lastBatch) < batchLimit →
  (length pages < fuel)%nat →
  ∃ w' : World,
    FetchBrands fuel w appToken maxCacheAge
    = Some (concat (map snd pages) ++ lastBatch, None, w')
    ∧ files w' !! GetDankCachePathname w BRAND_JSON_FILENAME
      = Some (mkFile
                ("[" +:+ cacheText true (map fst pages ++ [lastBody]) +:+ "]")
                (now w) true)
    ∧ length (requests w') = (length (requests w) + length pages + 1)%nat.
Proof.
  intros Hmiss Hmkdir Hcreate Hpages Hlast Hshort Hfuel.
  destruct (FetchBrands_served w appToken maxCacheAge pages lastBody lastBatch
              fuel Hmiss Hmkdir Hcreate Hpages Hlast Hshort Hfuel)
    as (w' & Hrun & Hfile & Hreq).
  exists w'. split; [exact Hrun|]. split; [|exact Hreq].
  rewrite Hfile, cacheText_snoc. f_equal. f_equal.
  rewrite !string_app_assoc. by destruct pages.
Qed.

(** X21. When the collection is a whole number of pages, at least one,
    so that the last page served is empty and its body strips to
    nothing, the text kept in the cache file ends with a comma before
    its closing bracket. *)
Theorem FetchBrands_trailing_comma (w : World) (appToken : string)
    (maxCacheAge : Z) (pages : list (bytes * list Brand)) (lastBody : bytes)
    (fuel : nat) :
  cachedBrands w maxCacheAge = None →
  mkdirOK w = true → createOK w = true →
  pages ≠ [] →
  (∀ (j : nat) (p : bytes * list Brand), pages !! j = Some p →
     servesPage w appToken (Z.of_nat j * batchLimit) p.1 p.2
     ∧ batchLimit ≤ Z.of_nat (length p.2)) →
  servesPage w appToken (Z.of_nat (length pages) * batchLimit) lastBody [] →
  stripBrackets lastBody = "" →
  (length pages < fuel)%nat →
  ∃ w' : World,
    FetchBrands fuel w appToken maxCacheAge
    = Some (concat (map snd pages), None, w')
    ∧ files w' !! GetDankCachePathname w BRAND_JSON_FILENAME
      = Some (mkFile ("[" +:+ cacheText true (map fst pages) +:+ ",]")
                (now w) true).
Proof.
  intros Hmiss Hmkdir Hcreate Hne Hpages Hlast Hstrip Hfuel.
  destruct (FetchBrands_served w appToken maxCacheAge pages lastBody []
              fuel Hmiss Hmkdir Hcreate Hpages Hlast) as (w' & Hrun & Hfile & _);
    [reflexivity | exact Hfuel |].
  exists w'. rewrite app_nil_r in Hrun. split; [exact Hrun|].
  rewrite Hfile, Hstrip. f_equal. f_equal.
  destruct pages; [by destruct Hne|]. by rewrite !string_app_assoc.
Qed.

(** X22. Against an endpoint that answers every page request with a full
    page, the page loop never ends: [FetchBrands] does not return within
    any number of iterations. *)
Theorem FetchBrands_never_returns (w : World) (appToken : string)
    (maxCacheAge : Z) (batches : nat → list Brand) :
  cachedBrands w maxCacheAge = None →
  mkdirOK w = true → createOK w = true →
  (∀ j : nat,
     pageOutcome w appToken (Z.of_nat j * batchLimit) = inr (batches j)
     ∧ batchLimit ≤ Z.of_nat (length (batches j))) →
  ∀ fuel : nat, FetchBrands fuel w appToken maxCacheAge = None.
Proof.
  intros Hmiss Hmkdir Hcreate Hfull fuel.
  rewrite (FetchBrands_network _ _ _ _ Hmiss Hmkdir Hcreate).
  set (cacheFile := GetDankCachePathname w BRAND_JSON_FILENAME).
  set (st0 := mkLoopState [] 0 true _).
  replace fuel with (fuel + 0)%nat by lia.
  destruct (fetchLoop_full_pages appToken cacheFile batches fuel st0 0%nat)
    as (st1 & -> & _).
  { intros j _. cbn [st0 offset]. rewrite Z.add_0_l.
    rewrite (pageOutcome_remote w) by reflexivity. apply Hfull. }
  reflexivity.
Qed.

End Pagination.

Lemma exampleRemote_serves :
  servesPage (json := exampleJSON) (exampleWorld exampleRemote) ""
    (Z.of_nat 0 * batchLimit) (arrayOfEmptyObjects 5000) exampleCollection
  ∧ servesPage (json := exampleJSON) (exampleWorld exampleRemote) ""
      (Z.of_nat 1 * batchLimit) "[]" [].
Proof.
  split; exists "200 OK"; split; vm_compute; reflexivity.
Defined.

Lemma FetchBrands_pages_witness :
  ∃ w' : World,
    FetchBrands (json := exampleJSON) (filepath := exampleFilepath)
      (bytesLib := exampleBytes) 2 (exampleWorld exampleRemote) "" 0
    = Some (exampleCollection ++ [], None, w')
    ∧ files w' !! "/srv/.dank/cache/us_ct_brands.json"
      = Some (mkFile
                ("[" +:+ cacheText (bytesLib := exampleBytes) true
                           [arrayOfEmptyObjects 5000; "[]"] +:+ "]")
                1000 true)
    ∧ length (requests w') = 2%nat.
Proof.
  destruct exampleRemote_serves as [Hfirst Hlast].
  destruct (FetchBrands_pages (json := exampleJSON)
              (filepath := exampleFilepath) (bytesLib := exampleBytes)
              (exampleWorld exampleRemote) "" 0
              [(arrayOfEmptyObjects 5000, exampleCollection)] "[]" [] 2)
    as (w' & Hrun & Hfile & Hreq).
  - vm_compute; reflexivity.
  - reflexivity.
  - reflexivity.
  - intros [|j] p Hp; [|discriminate Hp]. injection Hp as <-.
    split; [exact Hfirst | vm_compute; discriminate].
  - exact Hlast.
  - reflexivity.
  - cbn [length]. lia.
  - exists w'. split; [|split]; [| exact Hfile | exact Hreq].
    rewrite Hrun. cbn [map concat snd]. by rewrite !app_nil_r.
Defined.

Lemma FetchBrands_trailing_comma_witness :
  stripBrackets (bytesLib := exampleBytes) "[]" = ""
  ∧ ∃ w' : World,
      FetchBrands (json := exampleJSON) (filepath := exampleFilepath)
        (bytesLib := exampleBytes) 2 (exampleWorld exampleRemote) "" 0
      = Some (exampleCollection ++ [], None, w')
      ∧ files w' !! "/srv/.dank/cache/us_ct_brands.json"
        = Some (mkFile
                  ("[" +:+ cacheText (bytesLib := exampleBytes) true
                             [arrayOfEmptyObjects 5000] +:+ ",]")
                  1000 true).
Proof.
  split; [reflexivity|].
  destruct exampleRemote_serves as [Hfirst Hlast].
  destruct (FetchBrands_trailing_comma (json := exampleJSON)
              (filepath := exampleFilepath) (bytesLib := exampleBytes)
              (exampleWorld exampleRemote) "" 0
              [(arrayOfEmptyObjects 5000, exampleCollection)] "[]" 2)
    as (w' & Hrun & Hfile).
  - vm_compute; reflexivity.
  - reflexivity.
  - reflexivity.
  - discriminate.
  - intros [|j] p Hp; [|discriminate Hp]. injection Hp as <-.
    split; [exact Hfirst | vm_compute; discriminate].
  - exact Hlast.
  - reflexivity.
  - cbn [length]. lia.
  - exists w'. split; [|exact Hfile].
    rewrite Hrun. cbn [map concat snd]. by rewrite !app_nil_r.
Defined.

Lemma FetchBrands_never_returns_witness :
  FetchBrands (json := exampleJSON) (filepath := exampleFilepath)
    (bytesLib := exampleBytes) 3 (exampleWorld fullRemote) "" 0
  = None.
Proof.
  apply (FetchBrands_never_returns (json := exampleJSON)
           (filepath := exampleFilepath) (bytesLib := exampleBytes)
           (exampleWorld fullRemote) "" 0 (λ _, exampleCollection)).
  - vm_compute; reflexivity.
  - reflexivity.
  - reflexivity.
  - intros j. split; [vm_compute; reflexivity | vm_compute; discriminate].
Defined.

(** ** Exporting to CSV and to the database *)

Section ExportFacts.
Context {fmt : Fmt} {timefmt : TimeFormat}.

(** X23. For every brand, the CSV line has as many fields as the header
    has columns, and the SQL tuple as many values; in both, the fields
    from the twelfth on are the measures in the order of the struct,
    under the columns that bear their JSON names, as [AsCSV] and as
    [AsSQL] print them. *)
Theorem export_columns_aligned (b : Brand) :
  length (csvFields b) = length csvHeaderNames
  ∧ length (sqlFields b) = length csvHeaderNames
  ∧ take 51 (drop 11 csvHeaderNames) = measureJSONNames
  ∧ take 51 (drop 11 (csvFields b)) = map AsCSV (BrandMeasures b)
  ∧ take 51 (drop 11 (sqlFields b)) = map AsSQL (BrandMeasures b).
Proof. repeat split. Qed.

Lemma concat_sep_cons2 (sep x y : string) (l : list string) :
  String.concat sep (x :: y :: l) = x +:+ sep +:+ String.concat sep (y :: l).
Proof. reflexivity. Qed.

(** The loop of [DBInsertBrands] once a first tuple is written. *)
Lemma fold_insertStep (l : list Brand) :
  ∀ (sb : string) (b : Brand),
    fold_left insertStep l (sb +:+ sqlTuple b, false)
    = (sb +:+ String.concat ("," +:+ newline) (map sqlTuple (b :: l)), false).
Proof.
  induction l as [|c l IH]; intros sb b; [reflexivity|].
  change (fold_left insertStep (c :: l) (sb +:+ sqlTuple b, false))
    with (fold_left insertStep l
            (((sb +:+ sqlTuple b) +:+ ("," +:+ newline)) +:+ sqlTuple c, false)).
  rewrite IH. change (map sqlTuple (b :: c :: l))
    with (sqlTuple b :: sqlTuple c :: map sqlTuple l).
  rewrite concat_sep_cons2. cbn [map]. by rewrite !string_app_assoc.
Qed.

(** X24. [DBInsertBrands] sends nothing for an empty slice; for any
    other it sends one statement, the header, the tuples of the brands in
    order separated by a comma and a line feed, and the footer, and
    returns an error exactly when the database rejects it. *)
Theorem DBInsertBrands_statement (conn : Database) (brands : list Brand) :
  DBInsertBrands conn brands =
    match brands with
    | [] => (None, conn)
    | _ =>
        let query :=
          sqlHeader
          +:+ String.concat ("," +:+ newline) (map sqlTuple brands)
          +:+ sqlFooter in
        (if rejects conn query then Some ErrDBInsertFailed else None,
         mkDatabase (rejects conn) (statements conn ++ [query]))
    end.
Proof.
  destruct brands as [|b brands]; [reflexivity|].
  unfold DBInsertBrands. cbn [length Nat.eqb fold_left insertStep].
  rewrite fold_insertStep. cbv zeta. unfold Exec.
  by rewrite !string_app_assoc.
Qed.

End ExportFacts.

(** ** The ingestion driver *)

Section IngestFacts.
Context {fmt : Fmt} {timefmt : TimeFormat}.
Context {json : EncodingJSON} {filepath : Filepath} {bytesLib : Bytes}.

Lemma concat_empty_cons (x : string) (xs : list string) :
  String.concat "" (x :: xs) = x +:+ String.concat "" xs.
Proof.
  destruct xs as [|y xs]; [|reflexivity].
  cbn [String.concat]. by rewrite string_app_nil_r.
Qed.

(** Writing one text per element to an open file appends the texts. *)
Lemma fold_fileWrite {A : Type} (g : A → string) (name : string) (l : list A) :
  ∀ (w : World) (c : bytes) (r : bool),
    files w !! name = Some (mkFile c (now w) r) →
    files (fold_left (λ w x, fileWrite w name (g x)) l w) !! name
    = Some (mkFile (c +:+ String.concat "" (map g l)) (now w) r).
Proof.
  induction l as [|x l IH]; intros w c r Hfile.
  - cbn [fold_left map String.concat]. by rewrite string_app_nil_r.
  - cbn [fold_left map]. rewrite concat_empty_cons, <- string_app_assoc.
    apply (IH (fileWrite w name (g x))).
    rewrite files_fileWrite_eq, Hfile. reflexivity.
Qed.

(** X25. After a fetch that succeeds, [primeData] writes to the CSV
    cache file the header and then one line for each brand that
    [CleanBrands] keeps, in order, replacing what the file held, and
    hands exactly those brands to [DBInsertBrands]. *)
Theorem primeData_exports_clean (fuel : nat) (w : World) (conn : Database)
    (appToken : string) (fetched : list Brand) (w1 : World) :
  FetchBrands fuel w appToken (24 * time.Hour) = Some (fetched, None, w1) →
  mkdirOK w1 = true → createOK w1 = true →
  ∃ (r : option ingestError) (w' : World) (conn' : Database),
    primeData fuel w conn appToken = Some (r, w', conn')
    ∧ files w' !! GetDankCachePathname w1 BRAND_CSV_FILENAME
      = Some (mkFile
                (CSVHeaders
                 +:+ String.concat "" (map CSVValue (CleanBrands fetched)))
                (now w1) true)
    ∧ conn' = (DBInsertBrands conn (CleanBrands fetched)).2
    ∧ r = ErrInsertBrandsFailed <$> (DBInsertBrands conn (CleanBrands fetched)).1.
Proof.
  intros Hfetch Hmkdir Hcreate. unfold primeData. cbv zeta. rewrite Hfetch.
  unfold MakeCacheFile. rewrite Hmkdir, Hcreate. cbn [negb].
  change (Join [dankRoot w1; DankDir; "cache"; BRAND_CSV_FILENAME])
    with (GetDankCachePathname w1 BRAND_CSV_FILENAME).
  set (csvFile := GetDankCachePathname w1 BRAND_CSV_FILENAME).
  assert (Hfile :
    files (fold_left (λ w brand, fileWrite w csvFile (CSVValue brand))
             (CleanBrands fetched)
             (fileWrite (osCreate w1 csvFile) csvFile CSVHeaders)) !! csvFile
    = Some (mkFile (CSVHeaders
                    +:+ String.concat "" (map CSVValue (CleanBrands fetched)))
              (now w1) true)).
  { apply (fold_fileWrite CSVValue csvFile (CleanBrands fetched)
             (fileWrite (osCreate w1 csvFile) csvFile CSVHeaders)).
    rewrite files_fileWrite_eq. cbn [files osCreate setFiles].
    by rewrite lookup_insert_eq. }
  destruct (DBInsertBrands conn (CleanBrands fetched)) as [[e|] conn'];
    eexists _, _, _; (split; [reflexivity|]); by repeat split.
Qed.

(** X26. Whatever happens, [primeData] sends the database at most one
    statement, and none at all when the fetch fails or the CSV cache file
    cannot be created. *)
Theorem primeData_statements (fuel : nat) (w : World) (conn : Database)
    (appToken : string) (r : option ingestError) (w' : World)
    (conn' : Database) :
  primeData fuel w conn appToken = Some (r, w', conn') →
  (statements conn' = statements conn
   ∨ ∃ query : string, statements conn' = statements conn ++ [query])
  ∧ (∀ e : error,
       r = Some (ErrFetchFailed e) ∨ r = Some (ErrCreateCSVCache e) →
       conn' = conn).
Proof.
  unfold primeData. cbv zeta.
  destruct (FetchBrands _ _ _ _) as [[[fetched [e|]] w1]|]; [| |discriminate].
  { intros [= <- <- <-]. split; [by left | done]. }
  destruct (MakeCacheFile w1 BRAND_CSV_FILENAME) as [[e | csvFile] w2].
  { intros [= <- <- <-]. split; [by left | done]. }
  unfold DBInsertBrands.
  destruct (CleanBrands fetched) as [|b bs].
  { cbn [length Nat.eqb]. intros [= <- <- <-]. split; [by left|].
    intros e [H | H]; discriminate H. }
  cbn [length Nat.eqb].
  destruct (fold_left insertStep (b :: bs) (sqlHeader, true)) as [sb isFirst].
  unfold Exec.
  destruct (rejects conn (sb +:+ sqlFooter)); intros [= <- <- <-];
    (split; [right; eauto | intros e [H | H]; discriminate H]).
Qed.

End IngestFacts.

(** A collection of one record with a name: the CSV cache file holds the
    header and its line, and one statement is sent to the database. *)
Lemma primeData_exports_clean_witness :
  ∃ (w' : World) (conn' : Database),
    primeData (fmt := exampleFmt) (timefmt := exampleTimeFormat)
      (json := namedJSON) (filepath := exampleFilepath)
      (bytesLib := exampleBytes) 1 (exampleWorld namedRemote) emptyDatabase ""
    = Some (None, w', conn')
    ∧ files w' !! "/srv/.dank/cache/us_ct_brands.csv"
      = Some (mkFile
                (CSVHeaders
                 +:+ CSVValue (fmt := exampleFmt) (timefmt := exampleTimeFormat)
                       (namedBrand "Blue Dream" "R-101"))
                1000 true)
    ∧ length (statements conn') = 1%nat.
Proof.
  destruct (primeData_exports_clean (fmt := exampleFmt)
              (timefmt := exampleTimeFormat) (json := namedJSON)
              (filepath := exampleFilepath) (bytesLib := exampleBytes)
              1 (exampleWorld namedRemote) emptyDatabase ""
              [namedBrand "Blue Dream" "R-101"] _ eq_refl eq_refl eq_refl)
    as (r & w' & conn' & Hrun & Hfile & -> & ->).
  eexists w', _. split; [exact Hrun|]. split.
  - etransitivity; [|etransitivity; [exact Hfile|]].
    + f_equal.
    + vm_compute. reflexivity.
  - vm_compute. reflexivity.
Defined.

Lemma primeData_statements_witness :
  ∃ (w' : World) (conn' : Database),
    primeData (fmt := exampleFmt) (timefmt := exampleTimeFormat)
      (json := namedJSON) (filepath := exampleFilepath)
      (bytesLib := exampleBytes) 1 (exampleWorld namedRemote) emptyDatabase ""
    = Some (None, w', conn')
    ∧ (statements conn' = []
       ∨ ∃ query : string, statements conn' = [] ++ [query]).
Proof.
  eexists _, _. split; [reflexivity|].
  apply (primeData_statements (fmt := exampleFmt)
           (timefmt := exampleTimeFormat) (json := namedJSON)
           (filepath := exampleFilepath) (bytesLib := exampleBytes)
           1 (exampleWorld namedRemote) emptyDatabase "" None _ _ eq_refl).
Defined.
